(** * IndexTTS2 service (tts/index-tts2/app.py)

    A shallow embedding of the REST gateway: request validation, rendering of
    the command template, execution of the external command, retrieval of the
    audio file and construction of the response.

    Python [str] values are modelled as [string], one [ascii] per code point,
    so the model covers the strings whose code points are below 256.  Python
    [int] values are [Z], [bytes] values are [list byte], and a [dict] with
    string keys is a [gmap string _]. *)

From Stdlib Require Import ZArith NArith String Ascii List Lia DecimalString.
From Stdlib.Strings Require Byte.
From Stdlib.Numbers Require HexadecimalString.
From Stdlib.Floats Require Import SpecFloat.
From stdpp Require Import base option list gmap strings.

Local Open Scope string_scope.

(** ** Python strings *)

(** The code point of the double quote, written by its decimal code. *)
Definition dquote : ascii := "034"%char.

(** Truth value of a [str]: [bool(s)], false exactly for the empty string. *)
Definition str_bool (s : string) : bool :=
  match s with
  | EmptyString => false
  | String _ _ => true
  end.

(** [c.isspace()] on code points below 256: TAB, LF, VT, FF, CR, the four
    separators FS, GS, RS, US, SPACE, NEL and the no-break space. *)
Definition isspace (c : ascii) : bool :=
  let n := N_of_ascii c in
  ((9 <=? n) && (n <=? 13) || (28 <=? n) && (n <=? 32)
   || (n =? 133) || (n =? 160))%N.

(** [s.lstrip()], [s.rstrip()] and [s.strip()] with no argument. *)
Fixpoint lstrip (s : string) : string :=
  match s with
  | EmptyString => EmptyString
  | String c r => if isspace c then lstrip r else s
  end.

Fixpoint rstrip (s : string) : string :=
  match s with
  | EmptyString => EmptyString
  | String c r =>
      match rstrip r with
      | EmptyString => if isspace c then EmptyString else String c EmptyString
      | r' => String c r'
      end
  end.

Definition strip (s : string) : string := rstrip (lstrip s).

(** [str(n)] for an [int]: the decimal digits, with a leading minus sign for
    a negative number. *)
Definition str_int (n : Z) : string := NilZero.string_of_int (Z.to_int n).

(** ** Values of the substitution mapping

    The mapping built by [synthesize] holds [str] values and, for the seed,
    an [int]. *)
Inductive value : Type :=
| VStr (s : string)
| VInt (n : Z).

(** [bool(v)]: the test of [if v] in the comprehension of [_render_command]. *)
Definition value_bool (v : value) : bool :=
  match v with
  | VStr s => str_bool s
  | VInt n => negb (n =? 0)%Z
  end.

(** [str(v)]. *)
Definition value_str (v : value) : string :=
  match v with
  | VStr s => s
  | VInt n => str_int n
  end.

(** ** shlex.quote *)

(** The characters matched by the class [\w@%+=:,./-] under [re.ASCII]. *)
Definition is_safe_char (c : ascii) : bool :=
  let n := N_of_ascii c in
  ((48 <=? n) && (n <=? 57) || (65 <=? n) && (n <=? 90)
   || (97 <=? n) && (n <=? 122) || (n =? 95)
   || (n =? 64) || (n =? 37) || (n =? 43) || (n =? 61) || (n =? 58)
   || (n =? 44) || (n =? 46) || (n =? 47) || (n =? 45))%N.

(** [_find_unsafe(s) is None]: no character outside the safe class. *)
Fixpoint all_safe (s : string) : bool :=
  match s with
  | EmptyString => true
  | String c r => is_safe_char c && all_safe r
  end.

(** The five characters a single quote is replaced with: a closing quote,
    a double-quoted single quote, and an opening quote. *)
Definition squote_escape : string :=
  String "'" (String dquote (String "'" (String dquote (String "'" EmptyString)))).

(** [s.replace(q, squote_escape)] where [q] is the single quote. *)
Fixpoint replace_squote (s : string) : string :=
  match s with
  | EmptyString => EmptyString
  | String c r =>
      if Ascii.eqb c "'" then squote_escape +:+ replace_squote r
      else String c (replace_squote r)
  end.

(** [shlex.quote(s)]. *)
Definition shlex_quote (s : string) : string :=
  if negb (str_bool s) then "''"
  else if all_safe s then s
  else "'" +:+ replace_squote s +:+ "'".

(** ** Exceptions *)

(** Exceptions other than [KeyError]. *)
Inductive error : Type :=
| ValueError (msg : string)
| IndexError (msg : string)
| OtherError (msg : string).

(** Exceptions [str.format] can raise: [KeyError(key)], whose [args[0]] is
    [key], or another one. *)
Inductive exn : Type :=
| KeyError (key : string)
| Error (e : error).

(** What reaches the caller of the synthesizer: an [HTTPException] raised
    by the application, or an exception nothing in the application catches. *)
Inductive raised : Type :=
| HTTPException (status_code : Z) (detail : string)
| Unhandled (e : error).

(** ** str.format: the markup of a format string

    [MarkupIterator_next] and [parse_field] of CPython's
    Objects/stringlib/unicode_format.h, on which [str.format] is built: it
    cuts the format string into literal text and replacement fields, from
    left to right, and stops at the first syntax error. *)

Inductive markup : Type :=
| MLiteral (text : string)
| MField (field_name : string) (conversion : option ascii)
    (format_spec : string) (format_spec_needs_expanding : bool)
| MError (msg : string).

Definition is_brace (c : ascii) : bool := Ascii.eqb c "{" || Ascii.eqb c "}".

(** The literal text up to the first brace, then that brace and what follows
    it ([None] at the end of the string). *)
Fixpoint scan_literal (s : string) : string * option (ascii * string) :=
  match s with
  | EmptyString => (EmptyString, None)
  | String c r =>
      if is_brace c then (EmptyString, Some (c, r))
      else let '(lit, k) := scan_literal r in (String c lit, k)
  end.

Inductive name_end : Type :=
| NameEnd (c : ascii) (rest : string)
| NameLBrace
| NameEOS.

(** The field name: it ends at a closing brace, a colon or an exclamation
    mark; after an opening bracket everything up to the next closing bracket
    belongs to the name; an opening brace is an error. *)
Fixpoint scan_field_name (in_bracket : bool) (s : string) : string * name_end :=
  match s with
  | EmptyString => (EmptyString, NameEOS)
  | String c r =>
      if in_bracket then
        let '(n, e) := scan_field_name (negb (Ascii.eqb c "]")) r in (String c n, e)
      else if Ascii.eqb c "{" then (EmptyString, NameLBrace)
      else if Ascii.eqb c "[" then
        let '(n, e) := scan_field_name true r in (String c n, e)
      else if Ascii.eqb c "}" || Ascii.eqb c ":" || Ascii.eqb c "!" then
        (EmptyString, NameEnd c r)
      else let '(n, e) := scan_field_name false r in (String c n, e)
  end.

(** The format spec: it ends at the closing brace that balances the opening
    brace of the field; [count] is the number of braces still open.  The
    result is the spec, whether it holds a nested field, and the rest. *)
Fixpoint scan_format_spec (count : nat) (s : string) : option (string * bool * string) :=
  match s with
  | EmptyString => None
  | String c r =>
      if Ascii.eqb c "{" then
        match scan_format_spec (S count) r with
        | Some (spec, _, rest) => Some (String c spec, true, rest)
        | None => None
        end
      else if Ascii.eqb c "}" then
        let count' := pred count in
        if Nat.eqb count' 0 then Some (EmptyString, false, r)
        else
          match scan_format_spec count' r with
          | Some (spec, b, rest) => Some (String c spec, b, rest)
          | None => None
          end
      else
        match scan_format_spec count r with
        | Some (spec, b, rest) => Some (String c spec, b, rest)
        | None => None
        end
  end.

Inductive field_result : Type :=
| FieldOk (field_name : string) (conversion : option ascii)
    (format_spec : string) (format_spec_needs_expanding : bool) (rest : string)
| FieldError (msg : string).

Definition parse_format_spec (field_name : string) (conversion : option ascii)
    (s : string) : field_result :=
  match scan_format_spec 1 s with
  | Some (spec, b, rest) => FieldOk field_name conversion spec b rest
  | None => FieldError "unmatched '{' in format spec"
  end.

(** [parse_field]: [s] is the format string after the opening brace. *)
Definition parse_field (s : string) : field_result :=
  match scan_field_name false s with
  | (_, NameLBrace) => FieldError "unexpected '{' in field name"
  | (_, NameEOS) => FieldError "expected '}' before end of string"
  | (name, NameEnd c rest) =>
      if Ascii.eqb c "!" then
        match rest with
        | EmptyString =>
            FieldError "end of string while looking for conversion specifier"
        | String conv rest1 =>
            match rest1 with
            | EmptyString => parse_format_spec name (Some conv) EmptyString
            | String c2 rest2 =>
                if Ascii.eqb c2 "}" then FieldOk name (Some conv) EmptyString false rest2
                else if Ascii.eqb c2 ":" then parse_format_spec name (Some conv) rest2
                else FieldError "expected ':' after conversion specifier"
            end
        end
      else if Ascii.eqb c ":" then parse_format_spec name None rest
      else FieldOk name None EmptyString false rest
  end.

Inductive next_result : Type :=
| NextEnd
| NextError (msg : string)
| NextLiteral (literal : string) (rest : string)
| NextField (literal : string) (field_name : string) (conversion : option ascii)
    (format_spec : string) (format_spec_needs_expanding : bool) (rest : string).

(** [MarkupIterator_next]: the next literal text and, when one follows, the
    next replacement field.  A doubled brace is an escaped brace: it ends the
    literal, which keeps one of the two. *)
Definition MarkupIterator_next (s : string) : next_result :=
  match s with
  | EmptyString => NextEnd
  | _ =>
      match scan_literal s with
      | (lit, None) => NextLiteral lit EmptyString
      | (lit, Some (c, rest)) =>
          match rest with
          | EmptyString =>
              if Ascii.eqb c "}" then NextError "Single '}' encountered in format string"
              else NextError "Single '{' encountered in format string"
          | String c' rest' =>
              if Ascii.eqb c c' then NextLiteral (lit +:+ String c EmptyString) rest'
              else if Ascii.eqb c "}" then
                NextError "Single '}' encountered in format string"
              else
                match parse_field rest with
                | FieldOk n conv spec b rest1 => NextField lit n conv spec b rest1
                | FieldError msg => NextError msg
                end
          end
      end
  end.

(** The whole iteration.  Every step consumes at least one character, so
    [String.length s] steps are enough ([MarkupIterator_fuel] below). *)
Fixpoint MarkupIterator_loop (fuel : nat) (s : string) : list markup :=
  match fuel with
  | O => []
  | S fuel' =>
      match MarkupIterator_next s with
      | NextEnd => []
      | NextError msg => [MError msg]
      | NextLiteral lit rest => MLiteral lit :: MarkupIterator_loop fuel' rest
      | NextField lit n conv spec b rest =>
          MLiteral lit :: MField n conv spec b :: MarkupIterator_loop fuel' rest
      end
  end.

Definition MarkupIterator (s : string) : list markup :=
  MarkupIterator_loop (String.length s) s.

(** ** str.format: rendering the fields *)

Definition PY_SSIZE_T_MAX : Z := 2 ^ 63 - 1.

Definition digit_value (c : ascii) : option Z :=
  let n := N_of_ascii c in
  if ((48 <=? n) && (n <=? 57))%N then Some (Z.of_N n - 48)%Z else None.

Inductive integer_result : Type :=
| IsInteger (n : Z)
| NotInteger
| TooManyDigits.

(** [get_integer]: the value of a string of decimal digits; an empty string
    and a string with another character are not integers (the C code returns
    -1 for them); the overflow test comes before each multiplication. *)
Fixpoint get_integer_loop (accumulator : Z) (s : string) : integer_result :=
  match s with
  | EmptyString => IsInteger accumulator
  | String c r =>
      match digit_value c with
      | None => NotInteger
      | Some digitval =>
          if (accumulator >? (PY_SSIZE_T_MAX - digitval) / 10)%Z then TooManyDigits
          else get_integer_loop (accumulator * 10 + digitval) r
      end
  end.

Definition get_integer (s : string) : integer_result :=
  match s with
  | EmptyString => NotInteger
  | _ => get_integer_loop 0 s
  end.

(** [field_name_split]: the part of the field name before the first dot or
    opening bracket, and the rest (the attribute and index accesses). *)
Fixpoint field_name_split (s : string) : string * string :=
  match s with
  | EmptyString => (EmptyString, EmptyString)
  | String c r =>
      if Ascii.eqb c "." || Ascii.eqb c "[" then (EmptyString, s)
      else let '(first, rest) := field_name_split r in (String c first, rest)
  end.

(** The part of CPython this development does not spell out: what attribute
    and index access yields on a [str] and on the objects reached from it
    ([py_access s rest], where [rest] is the field name from its first dot or
    bracket on), the conversion and the formatting of such an object, [repr]
    and [ascii] of a [str] ([str_convert] under the conversions [r] and [a]),
    and [format] of a [str] under a non-empty format spec.  The objects
    reached by an access are of type [pyobj].  An access, and the conversion
    or formatting of an object reached by one, can raise any exception; the
    operations on a [str] do not raise [KeyError]. *)
Class PyObjects : Type := {
  pyobj : Type;
  py_access : string -> string -> exn + pyobj;
  obj_convert : pyobj -> ascii -> exn + string;
  obj_format : pyobj -> string -> exn + string;
  str_convert : string -> ascii -> error + string;
  str_format_spec : string -> string -> error + string
}.

Definition hex_of_ascii (c : ascii) : string :=
  HexadecimalString.NilZero.string_of_uint (N.to_hex_uint (N_of_ascii c)).

Definition unknown_conversion (c : ascii) : error :=
  let n := N_of_ascii c in
  if ((32 <? n) && (n <? 127))%N
  then ValueError ("Unknown conversion specifier " +:+ String c EmptyString)
  else ValueError ("Unknown conversion specifier \x" +:+ hex_of_ascii c).

Section Format.
Context `{PyObjects}.

(** The object a field stands for: a [str], or an object reached by an
    attribute or index access. *)
Inductive field_object : Type :=
| FStr (s : string)
| FObj (o : pyobj).

(** [get_field_object] with an empty tuple of positional arguments, as in
    [template.format( **kwargs)]: an empty or numeric first part asks for a
    positional argument, and there is none.  (The first such field raises,
    so the automatic numbering never gets past index 0 and its state never
    matters.) *)
Definition get_field_object (field_name : string) (kwargs : gmap string string)
    : exn + field_object :=
  let '(first, rest) := field_name_split field_name in
  match get_integer first with
  | TooManyDigits => inl (Error (ValueError "Too many decimal digits in format string"))
  | IsInteger index =>
      inl (Error (IndexError ("Replacement index " +:+ str_int index +:+
                              " out of range for positional args tuple")))
  | NotInteger =>
      if negb (str_bool first) then
        inl (Error (IndexError "Replacement index 0 out of range for positional args tuple"))
      else
        match kwargs !! first with
        | None => inl (KeyError first)
        | Some s =>
            if negb (str_bool rest) then inr (FStr s)
            else match py_access s rest with
                 | inl e => inl e
                 | inr o => inr (FObj o)
                 end
        end
  end.

(** [do_conversion]: [!r], [!s] and [!a]. *)
Definition do_conversion (obj : field_object) (conversion : ascii) : exn + field_object :=
  if Ascii.eqb conversion "r" || Ascii.eqb conversion "s" || Ascii.eqb conversion "a" then
    match obj with
    | FStr s =>
        if Ascii.eqb conversion "s" then inr (FStr s)
        else match str_convert s conversion with
             | inl e => inl (Error e)
             | inr s' => inr (FStr s')
             end
    | FObj o =>
        match obj_convert o conversion with
        | inl e => inl e
        | inr s => inr (FStr s)
        end
    end
  else inl (Error (unknown_conversion conversion)).

(** [render_field]: [format(obj, format_spec)]; a [str] under the empty
    format spec is itself. *)
Definition render_field (obj : field_object) (format_spec : string) : exn + string :=
  match obj with
  | FStr s =>
      if negb (str_bool format_spec) then inr s
      else match str_format_spec s format_spec with
           | inl e => inl (Error e)
           | inr out => inr out
           end
  | FObj o => obj_format o format_spec
  end.

(** [output_markup]: the field object, then the conversion, then the format
    spec (expanded by [build_spec] when it holds nested fields), then the
    formatting. *)
Definition output_markup (build_spec : string -> exn + string)
    (kwargs : gmap string string) (field_name : string) (conversion : option ascii)
    (format_spec : string) (format_spec_needs_expanding : bool) : exn + string :=
  match get_field_object field_name kwargs with
  | inl e => inl e
  | inr obj =>
      match (match conversion with
             | None => inr obj
             | Some c => do_conversion obj c
             end) with
      | inl e => inl e
      | inr obj' =>
          if format_spec_needs_expanding then
            match build_spec format_spec with
            | inl e => inl e
            | inr expanded => render_field obj' expanded
            end
          else render_field obj' format_spec
      end
  end.

(** [do_markup]: the pieces of the format string in order; the first
    exception ends the rendering. *)
Fixpoint do_markup (build_spec : string -> exn + string)
    (kwargs : gmap string string) (ms : list markup) (writer : string) : exn + string :=
  match ms with
  | [] => inr writer
  | MLiteral text :: ms' => do_markup build_spec kwargs ms' (writer +:+ text)
  | MField n conv spec b :: ms' =>
      match output_markup build_spec kwargs n conv spec b with
      | inl e => inl e
      | inr out => do_markup build_spec kwargs ms' (writer +:+ out)
      end
  | MError msg :: _ => inl (Error (ValueError msg))
  end.

(** [build_string]: rendering with a bound on the nesting of fields. *)
Fixpoint build_string (recursion_depth : nat) (kwargs : gmap string string)
    (input : string) : exn + string :=
  match recursion_depth with
  | O => inl (Error (ValueError "Max string recursion exceeded"))
  | S d => do_markup (build_string d kwargs) kwargs (MarkupIterator input) EmptyString
  end.

(** [template.format( **kwargs)]: the recursion depth starts at 2. *)
Definition str_format (template : string) (kwargs : gmap string string) : exn + string :=
  build_string 2 kwargs template.

End Format.

(** The names a format string refers to: the field names of its replacement
    fields and of the fields nested in their format specs, to the depth
    [build_string] reaches. *)
Fixpoint markup_placeholders (nested : string -> list string) (ms : list markup)
    : list string :=
  match ms with
  | [] => []
  | MLiteral _ :: ms' => markup_placeholders nested ms'
  | MField n _ spec b :: ms' =>
      (n :: (if b then nested spec else []) ++ markup_placeholders nested ms')%list
  | MError _ :: _ => []
  end.

Fixpoint placeholders_depth (recursion_depth : nat) (input : string) : list string :=
  match recursion_depth with
  | O => []
  | S d => markup_placeholders (placeholders_depth d) (MarkupIterator input)
  end.

Definition placeholders (template : string) : list string := placeholders_depth 2 template.

(** ** pathlib on POSIX *)

(** [s.split(sep)] for the separator [/]. *)
Fixpoint split_slash (s : string) : list string :=
  match s with
  | EmptyString => [EmptyString]
  | String c r =>
      if Ascii.eqb c "/" then EmptyString :: split_slash r
      else match split_slash r with
           | x :: xs => String c x :: xs
           | [] => [String c EmptyString]
           end
  end.

Fixpoint leading_slashes (s : string) : nat :=
  match s with
  | String c r => if Ascii.eqb c "/" then S (leading_slashes r) else 0
  | EmptyString => 0
  end.

(** A pure POSIX path: its root (empty, one slash, or two slashes when the
    string starts with exactly two) and its components, without the empty
    ones and the single dots. *)
Record PurePosixPath : Type := {
  root : string;
  parts : list string
}.

Definition is_component (x : string) : bool :=
  str_bool x && negb (String.eqb x ".").

Definition Path (s : string) : PurePosixPath :=
  {| root := match leading_slashes s with
             | 0 => EmptyString
             | 2 => "//"
             | _ => "/"
             end;
     parts := filter (fun x => is_component x = true) (split_slash s) |}.

(** [p / s]: an absolute [s] replaces [p]. *)
Definition truediv (p : PurePosixPath) (s : string) : PurePosixPath :=
  let q := Path s in
  if str_bool (root q) then q
  else {| root := root p; parts := (parts p ++ parts q)%list |}.

Fixpoint join_slash (xs : list string) : string :=
  match xs with
  | [] => EmptyString
  | [x] => x
  | x :: xs' => x +:+ "/" +:+ join_slash xs'
  end.

(** [str(p)]. *)
Definition path_str (p : PurePosixPath) : string :=
  match root p, parts p with
  | EmptyString, [] => "."
  | r, xs => r +:+ join_slash xs
  end.

(** ** The request *)

Record TTSRequest : Type := {
  text : string;
  reference_audio : option string;
  speaker : option string;
  seed : option Z;
  output_format : string;
  extra : gmap string string
}.

#[local] Set Warnings "-register-all".

(** JSON documents as [json.loads] reads them: a number written without
    fraction and exponent is an [int], any other number is a [float]. *)
Inductive json : Type :=
| JNull
| JBool (b : bool)
| JInt (n : Z)
| JFloat (x : spec_float)
| JStr (s : string)
| JList (items : list json)
| JObject (members : list (string * json)).

(** The member of an object under a key; the last one wins when the key is
    repeated, as in [json.loads]. *)
Fixpoint json_get (key : string) (members : list (string * json)) : option json :=
  match members with
  | [] => None
  | (k, v) :: rest =>
      match json_get key rest with
      | Some v' => Some v'
      | None => if String.eqb k key then Some v else None
      end
  end.

Definition as_str (j : json) : option string :=
  match j with JStr s => Some s | _ => None end.

(** The part of the validation library (pydantic 2) this development does
    not spell out: the integer a string or a [float] is read as where an
    integer is expected, [None] for one it does not accept. *)
Class Pydantic : Type := {
  str_as_int : string -> option Z;
  float_as_int : spec_float -> option Z
}.

(** An [int] field in the library's lax mode: an integer, a boolean (read
    as 1 or 0), or a string or a [float] the library reads as an integer. *)
Definition as_int `{Pydantic} (j : json) : option Z :=
  match j with
  | JInt n => Some n
  | JBool b => Some (if b then 1 else 0)%Z
  | JStr s => str_as_int s
  | JFloat x => float_as_int x
  | _ => None
  end.

(** A field declared [Optional[T] = None]: absent or [null] gives [None]. *)
Definition optional_field {A} (conv : json -> option A) (field : option json)
    : option (option A) :=
  match field with
  | None | Some JNull => Some None
  | Some j => Some <$> conv j
  end.

(** A field with a default value. *)
Definition default_field {A} (conv : json -> option A) (dflt : A) (field : option json)
    : option A :=
  match field with
  | None => Some dflt
  | Some j => conv j
  end.

(** A [Dict[str, str]]: an object whose members are all strings; of the
    members under a repeated key only the last one is there to be looked
    at. *)
Fixpoint as_str_dict (members : list (string * json)) : option (gmap string string) :=
  match members with
  | [] => Some ∅
  | (k, v) :: rest =>
      m ← as_str_dict rest;
      match m !! k with
      | Some _ => Some m
      | None => s ← as_str v; Some (<[k := s]> m)
      end
  end.

Definition as_dict (j : json) : option (gmap string string) :=
  match j with JObject ms => as_str_dict ms | _ => None end.

(** Validation of a request body against the fields of [TTSRequest], in the
    library's lax mode: a [str] field takes a string and nothing else, the
    [int] field takes what [as_int] reads, members the model does not
    declare are ignored, and [text] alone is required.  No field carries a
    constraint on its value. *)
Definition TTSRequest_validate `{Pydantic} (body : json) : option TTSRequest :=
  match body with
  | JObject ms =>
      text ← json_get "text" ms ≫= as_str;
      reference_audio ← optional_field as_str (json_get "reference_audio" ms);
      speaker ← optional_field as_str (json_get "speaker" ms);
      seed ← optional_field as_int (json_get "seed" ms);
      output_format ← default_field as_str "wav" (json_get "output_format" ms);
      extra ← default_field as_dict ∅ (json_get "extra" ms);
      Some {| text := text; reference_audio := reference_audio; speaker := speaker;
              seed := seed; output_format := output_format; extra := extra |}
  | _ => None
  end.

(** ** The operating system

    The file system, the temporary directories and the external command are
    outside the program: a run of the service is a function of a [world]
    and of what these operations do to it.  [run_shell command cwd] runs the
    command line through the shell in directory [cwd] and waits for it: it
    gives the exit status, or the exception raised when the shell could not
    be started. *)
Class OS : Type := {
  world : Type;
  mkdtemp : world -> (error + string) * world;
  rmtree : string -> world -> world;
  run_shell : string -> string -> world -> (error + Z) * world;
  path_exists : string -> world -> error + bool;
  read_bytes : string -> world -> error + list Byte.byte
}.

(** A call of [subprocess.run]. *)
Record run_call : Type := {
  call_command : string;
  call_cwd : string
}.

(** ** Computations of the service

    A computation takes the world and gives a value or the exception it
    raises, the world it leaves, and the calls of [subprocess.run] it made. *)
Section Service.
Context `{PyObjects} `{OS}.

Definition M (A : Type) : Type :=
  world -> (raised + A) * world * list run_call.

Definition ret {A} (a : A) : M A := fun w => (inr a, w, []).

Definition raise {A} (e : raised) : M A := fun w => (inl e, w, []).

Definition bind {A B} (m : M A) (k : A -> M B) : M B :=
  fun w =>
    let '(r, w1, calls1) := m w in
    match r with
    | inl e => (inl e, w1, calls1)
    | inr a => let '(r2, w2, calls2) := k a w1 in (r2, w2, (calls1 ++ calls2)%list)
    end.

(** A pure step that can raise. *)
Definition lift {A} (r : raised + A) : M A := fun w => (r, w, []).

(** An observation of the world that can fail with an exception nothing
    catches. *)
Definition observe {A} (f : world -> error + A) : M A :=
  fun w => match f w with
           | inl e => (inl (Unhandled e), w, [])
           | inr a => (inr a, w, [])
           end.

(** [with TemporaryDirectory() as tmpdir: body]: the directory is removed on
    every way out of the body. *)
Definition with_TemporaryDirectory {A} (body : string -> M A) : M A :=
  fun w =>
    let '(r, w1) := mkdtemp w in
    match r with
    | inl e => (inl (Unhandled e), w1, [])
    | inr tmpdir =>
        let '(res, w2, calls) := body tmpdir w1 in (res, rmtree tmpdir w2, calls)
    end.

(** What [subprocess.run(command, shell=True, check=True, cwd=cwd)] comes to:
    it returns, or raises [CalledProcessError] with the exit status when that
    is not zero. *)
Inductive run_outcome : Type :=
| CompletedProcess
| CalledProcessError (returncode : Z).

Definition subprocess_run (command cwd : string) : M run_outcome :=
  fun w =>
    let '(r, w1) := run_shell command cwd w in
    (match r with
     | inl e => inl (Unhandled e)
     | inr returncode =>
         inr (if (returncode =? 0)%Z then CompletedProcess
              else CalledProcessError returncode)
     end, w1, [{| call_command := command; call_cwd := cwd |}]).

End Service.

Notation "x <- m ;; k" := (bind m (fun x => k))
  (at level 100, m at next level, right associativity).

(** [a or b] on strings, for an optional string [a]. *)
Definition or_str (a : option string) (b : string) : string :=
  match a with
  | Some s => if str_bool s then s else b
  | None => b
  end.

(** [d.update(e)]. *)
Definition dict_update {V} (d e : gmap string V) : gmap string V := e ∪ d.

(** ** SubprocessSynthesizer *)

Record SubprocessSynthesizer : Type := {
  template : string;
  workdir : string
}.

Definition default_template : string :=
  "python /models/scripts/infer.py " +:+
  "--text {text} " +:+
  "--output {output} " +:+
  "--reference_audio {reference_audio} " +:+
  "--speaker {speaker} " +:+
  "--seed {seed}".

(** [os.getenv(name, dflt)] over an environment. *)
Definition getenv (environ : gmap string string) (name dflt : string) : string :=
  default dflt (environ !! name).

Module SubprocessSynthesizer.

Definition __init__ (environ : gmap string string) : SubprocessSynthesizer :=
  {| template := getenv environ "INDEX_TTS_COMMAND_TEMPLATE" default_template;
     workdir := getenv environ "INDEX_TTS_WORKDIR" "/models" |}.

(** The value a placeholder is replaced with. *)
Definition sanitize (v : value) : string :=
  if value_bool v then shlex_quote (value_str v) else EmptyString.

Section Methods.
Context `{PyObjects} `{OS}.

Definition _render_command (self : SubprocessSynthesizer)
    (values : gmap string value) : raised + string :=
  let sanitized := sanitize <$> values in
  match str_format (template self) sanitized with
  | inl (KeyError key) =>
      inl (HTTPException 500
             ("Missing placeholder '" +:+ key +:+ "' in INDEX_TTS_COMMAND_TEMPLATE."))
  | inl (Error e) => inl (Unhandled e)
  | inr command => inr (strip command)
  end.

Definition output_path (tmpdir : string) (request : TTSRequest) : PurePosixPath :=
  truediv (Path tmpdir) ("output." +:+ output_format request).

Definition template_values (request : TTSRequest) (output_path : PurePosixPath)
    : gmap string value :=
  dict_update
    {[ "text" := VStr (text request);
       "output" := VStr (path_str output_path);
       "reference_audio" := VStr (or_str (reference_audio request) EmptyString);
       "speaker" := VStr (or_str (speaker request) EmptyString);
       "seed" := match seed request with
                 | Some n => VInt n
                 | None => VStr EmptyString
                 end ]}
    (VStr <$> extra request).

Definition synthesize (self : SubprocessSynthesizer) (request : TTSRequest)
    : M (list Byte.byte) :=
  with_TemporaryDirectory (fun tmpdir =>
    let output_path := output_path tmpdir request in
    let template_values := template_values request output_path in
    command <- lift (_render_command self template_values) ;;
    if negb (str_bool command) then
      raise (HTTPException 500
               "Rendered command is empty. Check INDEX_TTS_COMMAND_TEMPLATE.")
    else
      outcome <- subprocess_run command (workdir self) ;;
      match outcome with
      | CalledProcessError returncode =>
          raise (HTTPException 500
                   ("IndexTTS2 command failed (exit code " +:+
                    str_int returncode +:+ ")."))
      | CompletedProcess =>
          found <- observe (path_exists (path_str output_path)) ;;
          if negb found then
            raise (HTTPException 500
                     ("Expected audio file not found at " +:+ path_str output_path))
          else observe (read_bytes (path_str output_path))
      end).

End Methods.
End SubprocessSynthesizer.

(** ** base64 *)

Definition b64_alphabet : string :=
  "ABCDEFGHIJKLMNOPQRSTUVWXYZabcdefghijklmnopqrstuvwxyz0123456789+/".

(** The character of a 6-bit value. *)
Definition b64_char (n : N) : ascii :=
  match String.get (N.to_nat n) b64_alphabet with
  | Some c => c
  | None => "="%char
  end.

(** [base64.b64encode]: three bytes give four characters; one or two
    remaining bytes give two or three characters and padding. *)
Fixpoint b64encode (data : list Byte.byte) : string :=
  match data with
  | [] => EmptyString
  | [x] =>
      let a := Byte.to_N x in
      String (b64_char (a / 4))
        (String (b64_char (a mod 4 * 16)) "==")
  | [x; y] =>
      let a := Byte.to_N x in
      let b := Byte.to_N y in
      String (b64_char (a / 4))
        (String (b64_char (a mod 4 * 16 + b / 16))
           (String (b64_char (b mod 16 * 4)) "="))
  | x :: y :: z :: rest =>
      let a := Byte.to_N x in
      let b := Byte.to_N y in
      let c := Byte.to_N z in
      String (b64_char (a / 4))
        (String (b64_char (a mod 4 * 16 + b / 16))
           (String (b64_char (b mod 16 * 4 + c / 64))
              (String (b64_char (c mod 64)) (b64encode rest))))
  end%N.

(** The 6-bit value of a character of the alphabet. *)
Definition b64_index (c : ascii) : option N :=
  let n := N_of_ascii c in
  (if (65 <=? n) && (n <=? 90) then Some (n - 65)
   else if (97 <=? n) && (n <=? 122) then Some (n - 71)
   else if (48 <=? n) && (n <=? 57) then Some (n + 4)
   else if n =? 43 then Some 62
   else if n =? 47 then Some 63
   else None)%N.

(** Decoding of padded base64 (RFC 4648, section 4): the inverse the
    response's readers apply to [audio_base64]. *)
Fixpoint b64decode (s : string) : option (list Byte.byte) :=
  match s with
  | EmptyString => Some []
  | String c1 (String c2 (String c3 (String c4 rest))) =>
      i1 ← b64_index c1;
      i2 ← b64_index c2;
      if Ascii.eqb c4 "=" then
        if str_bool rest then None
        else if Ascii.eqb c3 "=" then
          x ← Byte.of_N (i1 * 4 + i2 / 16);
          Some [x]
        else
          i3 ← b64_index c3;
          x ← Byte.of_N (i1 * 4 + i2 / 16);
          y ← Byte.of_N (i2 mod 16 * 16 + i3 / 4);
          Some [x; y]
      else
        i3 ← b64_index c3;
        i4 ← b64_index c4;
        x ← Byte.of_N (i1 * 4 + i2 / 16);
        y ← Byte.of_N (i2 mod 16 * 16 + i3 / 4);
        z ← Byte.of_N (i3 mod 4 * 64 + i4);
        tail ← b64decode rest;
        Some (x :: y :: z :: tail)
  | _ => None
  end%N.

(** ** The endpoints *)

(** The dictionary the [/synthesize] endpoint returns. *)
Record SynthesisResponse : Type := {
  audio_base64 : string;
  format : string;
  bytes : Z
}.

(** That dictionary as Python values: the value under [bytes] is an
    [int], the two others are [str]. *)
Definition response_dict (r : SynthesisResponse) : gmap string value :=
  {[ "audio_base64" := VStr (audio_base64 r);
     "format" := VStr (format r);
     "bytes" := VInt (bytes r) ]}.

(** Validation of a return value against the annotation [Dict[str, str]]
    of the two endpoint functions, which the framework takes as their
    response model: every value has to be a [str], and the library turns no
    integer into one. *)
Definition as_response_str (v : value) : option string :=
  match v with
  | VStr s => Some s
  | VInt _ => None
  end.

Definition Dict_str_str_validate (d : gmap string value) : option (gmap string string) :=
  if decide (map_Forall (fun _ v => is_Some (as_response_str v)) d)
  then Some (omap as_response_str d)
  else None.

(** What the client receives: the validated return value of the handler
    under status 200, the status and detail of an [HTTPException], the
    rejection of a body that fails validation (status 422), or the server's
    answer to an exception nothing catches (status 500, no detail of the
    application). *)
Inductive http_response : Type :=
| Response200 (body : gmap string string)
| ResponseHTTPException (status_code : Z) (detail : string)
| ResponseValidationError
| ResponseInternalServerError.

Definition response_status (r : http_response) : Z :=
  match r with
  | Response200 _ => 200
  | ResponseHTTPException status_code _ => status_code
  | ResponseValidationError => 422
  | ResponseInternalServerError => 500
  end.

(** The module-level functions of app.py. *)
Module App.
Section Endpoints.
Context `{PyObjects} `{OS} `{Pydantic}.

(** The handler of [POST /synthesize]. *)
Definition synthesize (handler : SubprocessSynthesizer) (request : TTSRequest)
    : M SynthesisResponse :=
  audio_bytes <- SubprocessSynthesizer.synthesize handler request ;;
  let audio_b64 := b64encode audio_bytes in
  ret {| audio_base64 := audio_b64;
         format := output_format request;
         bytes := Z.of_nat (length audio_bytes) |}.

(** [POST /synthesize] with a JSON body: validation of the body, then the
    handler, then validation of what the handler returns against its return
    annotation; a return value that fails it is an exception nothing
    catches. *)
Definition post_synthesize (handler : SubprocessSynthesizer) (body : json) (w : world)
    : http_response * world * list run_call :=
  match TTSRequest_validate body with
  | None => (ResponseValidationError, w, [])
  | Some request =>
      let '(r, w', calls) := synthesize handler request w in
      (match r with
       | inr response =>
           match Dict_str_str_validate (response_dict response) with
           | Some validated => Response200 validated
           | None => ResponseInternalServerError
           end
       | inl (HTTPException status_code detail) =>
           ResponseHTTPException status_code detail
       | inl (Unhandled _) => ResponseInternalServerError
       end, w', calls)
  end.

End Endpoints.

(** The handler of [GET /health]. *)
Definition health : gmap string string := {[ "status" := "ok" ]}.

(** [GET /health]: the handler, then the validation of what it returns. *)
Definition get_health : http_response :=
  match Dict_str_str_validate (VStr <$> health) with
  | Some validated => Response200 validated
  | None => ResponseInternalServerError
  end.

End App.

(** ** The classified errors

    The four [HTTPException]s the synthesizer raises, under the names the
    specification gives them. *)
Definition TemplateError (placeholder : string) : raised :=
  HTTPException 500
    ("Missing placeholder '" +:+ placeholder +:+ "' in INDEX_TTS_COMMAND_TEMPLATE.").

Definition ConfigurationError : raised :=
  HTTPException 500 "Rendered command is empty. Check INDEX_TTS_COMMAND_TEMPLATE.".

Definition ExecutionError (returncode : Z) : raised :=
  HTTPException 500
    ("IndexTTS2 command failed (exit code " +:+ str_int returncode +:+ ").").

Definition OutputMissingError (path : string) : raised :=
  HTTPException 500 ("Expected audio file not found at " +:+ path).

(** The five names [synthesize] always supplies. *)
Definition builtin_names : list string :=
  ["text"; "output"; "reference_audio"; "speaker"; "seed"].

(** The name a field looks up among the keyword arguments: the first part of
    its field name, when that is neither empty nor a number. *)
Definition keyword_of (field_name : string) : option string :=
  let first := fst (field_name_split field_name) in
  match get_integer first with
  | NotInteger => if str_bool first then Some first else None
  | _ => None
  end.

(** ** Reading a shell word

    How a POSIX shell reads a word made of unquoted characters, single-quoted
    parts and double-quoted parts: the value of the word, or [None] when an
    unquoted character is not a plain one (it could end the word or start an
    expansion), when a double-quoted part holds a character with a meaning
    of its own there, or when a quote is left open. *)
Inductive quoting : Type :=
| Unquoted
| InSingle
| InDouble.

Definition double_quote_special (c : ascii) : bool :=
  Ascii.eqb c "$" || Ascii.eqb c "`" || Ascii.eqb c "\".

Fixpoint sh_word (q : quoting) (s : string) : option string :=
  match s with
  | EmptyString => match q with Unquoted => Some EmptyString | _ => None end
  | String c r =>
      match q with
      | Unquoted =>
          if Ascii.eqb c "'" then sh_word InSingle r
          else if Ascii.eqb c dquote then sh_word InDouble r
          else if is_safe_char c then String c <$> sh_word Unquoted r
          else None
      | InSingle =>
          if Ascii.eqb c "'" then sh_word Unquoted r
          else String c <$> sh_word InSingle r
      | InDouble =>
          if Ascii.eqb c dquote then sh_word Unquoted r
          else if double_quote_special c then None
          else String c <$> sh_word InDouble r
      end
  end.

(** ** Concrete instances, for running the service on given inputs *)

(** A Python with [str] objects only, on which every attribute or index
    access, every conversion other than [!s] and every non-empty format spec
    raises: enough for the templates whose fields are plain names. *)
Definition plain_fields : PyObjects :=
  {| pyobj := Empty_set;
     py_access := fun _ _ => inl (Error (OtherError "access"));
     obj_convert := fun o _ => match o with end;
     obj_format := fun o _ => match o with end;
     str_convert := fun _ _ => inl (OtherError "conversion");
     str_format_spec := fun _ _ => inl (OtherError "format spec") |}.

(** A validation library that reads the plain decimal numerals, with or
    without a minus sign, as integers, and no other string; of the [float]
    values it reads the zeros and the finite ones without a fraction. *)
Definition decimal_strings : Pydantic :=
  {| str_as_int := fun s => Z.of_int <$> NilZero.int_of_string s;
     float_as_int := fun x =>
       match x with
       | S754_zero _ => Some 0%Z
       | S754_finite sign m e =>
           let n := (if sign then Z.neg m else Z.pos m) in
           if (0 <=? e)%Z then Some (n * 2 ^ e)%Z
           else if (n mod 2 ^ (- e) =? 0)%Z then Some (n / 2 ^ (- e))%Z
           else None
       | _ => None
       end |}.

(** A world of regular files, with a counter that names the temporary
    directories. *)
Record toy_world : Type := {
  files : gmap string (list Byte.byte);
  created : nat
}.

(** An external command: from the command line, the working directory and
    the files, an exit status and the files it leaves. *)
Definition program : Type :=
  string -> string -> gmap string (list Byte.byte)
  -> (error + Z) * gmap string (list Byte.byte).

Definition toy_os (prog : program) : OS :=
  {| world := toy_world;
     mkdtemp := fun w =>
       (inr ("/tmp/tmp" +:+ str_int (Z.of_nat (created w))),
        {| files := files w; created := S (created w) |});
     rmtree := fun tmpdir w =>
       {| files := filter (fun kv => String.prefix (tmpdir +:+ "/") kv.1 = false) (files w);
          created := created w |};
     run_shell := fun command cwd w =>
       let '(r, fs) := prog command cwd (files w) in
       (r, {| files := fs; created := created w |});
     path_exists := fun p w => inr (bool_decide (is_Some (files w !! p)));
     read_bytes := fun p w =>
       match files w !! p with
       | Some data => inr data
       | None => inl (OtherError "FileNotFoundError")
       end |}.

(** A command that touches nothing and exits with a given status. *)
Definition exit_with (status : Z) : program := fun _ _ fs => (inr status, fs).

Fixpoint strip_prefix (p s : string) : option string :=
  match p, s with
  | EmptyString, _ => Some s
  | String a p', String b s' => if Ascii.eqb a b then strip_prefix p' s' else None
  | String _ _, EmptyString => None
  end.

(** A command [stub PATH] that writes four bytes to the file [PATH] and
    exits with status 0; any other command line exits with status 127. *)
Definition stub_data : list Byte.byte := [Byte.x52; Byte.x49; Byte.x46; Byte.x46].

Definition write_stub : program := fun command _ fs =>
  match strip_prefix "stub " command with
  | Some path => (inr 0%Z, <[path := stub_data]> fs)
  | None => (inr 127%Z, fs)
  end.

Definition empty_world : toy_world := {| files := ∅; created := 0 |}.

(** A request with a text and defaults everywhere else. *)
Definition request_of_text (t : string) : TTSRequest :=
  {| text := t; reference_audio := None; speaker := None; seed := None;
     output_format := "wav"; extra := ∅ |}.


(** ** Vocabulary of the statements *)

(** The text of a request body, when it is an object whose [text] member is
    a string. *)
Definition body_text (body : json) : option string :=
  match body with
  | JObject members => json_get "text" members ≫= as_str
  | _ => None
  end.

(** A field name that names one of the keyword arguments, with no attribute
    or index access after the name. *)
Definition supplied (kwargs : gmap string string) (field_name : string) : Prop :=
  snd (field_name_split field_name) = EmptyString ∧
  is_Some (kwargs !! fst (field_name_split field_name)).

(** A field name whose keyword is not among the keyword arguments. *)
Definition absent (kwargs : gmap string string) (field_name : string) : Prop :=
  ∃ k, keyword_of field_name = Some k ∧ kwargs !! k = None.

(** A string with no brace in it. *)
Fixpoint brace_free (s : string) : bool :=
  match s with
  | EmptyString => true
  | String c r => negb (is_brace c) && brace_free r
  end.

(** A string with no slash in it. *)
Fixpoint slash_free (s : string) : bool :=
  match s with
  | EmptyString => true
  | String c r => negb (Ascii.eqb c "/") && slash_free r
  end.

(** A field name with no attribute or index access after the name. *)
Definition access_free (field_name : string) : Prop :=
  snd (field_name_split field_name) = EmptyString.

(** What a name is replaced with under a mapping: the sanitized value the
    mapping holds for it (the empty string for a name it does not hold). *)
Definition substituted (values : gmap string value) (k : string) : string :=
  default EmptyString ((SubprocessSynthesizer.sanitize <$> values) !! k).

(** * Properties *)

(** ** The model on a few inputs *)

Example strip_examples :
  strip "  ls -l  " = "ls -l" ∧ strip "   " = EmptyString ∧ strip "a b" = "a b".
Proof. repeat split; reflexivity. Qed.

Example shlex_quote_examples :
  shlex_quote "hello" = "hello"
  ∧ shlex_quote "hello world" = "'hello world'"
  ∧ shlex_quote "a;rm -rf $HOME" = "'a;rm -rf $HOME'"
  ∧ shlex_quote "it's" = "'it" +:+ squote_escape +:+ "s'"
  ∧ shlex_quote EmptyString = "''".
Proof. repeat split; reflexivity. Qed.

Example str_format_examples :
  @str_format plain_fields "a{{b}}{x}" {[ "x" := "1" ]} = inr "a{b}1"
  ∧ @str_format plain_fields "{x} {y}" {[ "x" := "1" ]} = inl (KeyError "y")
  ∧ @str_format plain_fields "{x} {}" {[ "x" := "1" ]} =
      inl (Error (IndexError "Replacement index 0 out of range for positional args tuple"))
  ∧ @str_format plain_fields "{x:{w}}" {[ "x" := "1" ]} = inl (KeyError "w")
  ∧ @str_format plain_fields "{x" {[ "x" := "1" ]} =
      inl (Error (ValueError "expected '}' before end of string"))
  ∧ @str_format plain_fields "{x}}" {[ "x" := "1" ]} =
      inl (Error (ValueError "Single '}' encountered in format string")).
Proof. repeat split; vm_compute; reflexivity. Qed.

Example placeholders_examples :
  placeholders default_template = builtin_names
  ∧ placeholders "{0} {voice.name!r:>{width}}" = ["0"; "voice.name"; "width"]
  ∧ keyword_of "voice.name" = Some "voice"
  ∧ keyword_of "0" = None.
Proof. repeat split; vm_compute; reflexivity. Qed.

Example path_examples :
  path_str (truediv (Path "/tmp/tmpx") "output.wav") = "/tmp/tmpx/output.wav"
  ∧ path_str (truediv (Path "/tmp/tmpx") "output.a//b/./c/") = "/tmp/tmpx/output.a/b/c"
  ∧ path_str (truediv (Path "/tmp/tmpx") "output.") = "/tmp/tmpx/output.".
Proof. repeat split; reflexivity. Qed.

Example b64encode_examples :
  b64encode [Byte.x00; Byte.xff; Byte.x10] = "AP8Q"
  ∧ b64encode [Byte.x61; Byte.x62] = "YWI="
  ∧ b64encode [Byte.x61] = "YQ=="
  ∧ b64encode [] = EmptyString.
Proof. repeat split; reflexivity. Qed.

(** ** Strings *)

Lemma append_nil_l s : EmptyString +:+ s = s.
Proof. reflexivity. Qed.

Lemma append_cons c s t : String c s +:+ t = String c (s +:+ t).
Proof. reflexivity. Qed.

Ltac str_norm := rewrite ?append_cons, ?append_nil_l.

(** ** The markup iterator terminates *)

Lemma scan_literal_length s lit c rest :
  scan_literal s = (lit, Some (c, rest)) → String.length rest < String.length s.
Proof.
  revert lit. induction s as [|a s IH]; intros lit; simpl; [discriminate|].
  destruct (is_brace a).
  - intros [= <- <- <-]. lia.
  - destruct (scan_literal s) as [l k] eqn:E. intros [= <- ->].
    specialize (IH _ eq_refl). lia.
Qed.

Lemma scan_field_name_length s : ∀ b n c rest,
  scan_field_name b s = (n, NameEnd c rest) → String.length rest < String.length s.
Proof.
  induction s as [|a s IH]; intros b n c rest; simpl; [discriminate|].
  destruct b.
  - destruct (scan_field_name _ s) as [n' e] eqn:E. intros [= <- ->].
    apply IH in E. lia.
  - destruct (Ascii.eqb a "{"); [discriminate|].
    destruct (Ascii.eqb a "[").
    + destruct (scan_field_name _ s) as [n' e] eqn:E. intros [= <- ->].
      apply IH in E. lia.
    + destruct (_ || _).
      * intros [= <- <- <-]. lia.
      * destruct (scan_field_name _ s) as [n' e] eqn:E. intros [= <- ->].
        apply IH in E. lia.
Qed.

Lemma scan_format_spec_length s : ∀ count spec b rest,
  scan_format_spec count s = Some (spec, b, rest) → String.length rest < String.length s.
Proof.
  induction s as [|a s IH]; intros count spec b rest; simpl; [discriminate|].
  destruct (Ascii.eqb a "{").
  - destruct (scan_format_spec _ s) as [[[sp b'] r]|] eqn:E; [|discriminate].
    intros [= <- <- <-]. apply IH in E. lia.
  - destruct (Ascii.eqb a "}").
    + destruct (Nat.eqb _ 0).
      * intros [= <- <- <-]. lia.
      * destruct (scan_format_spec _ s) as [[[sp b'] r]|] eqn:E; [|discriminate].
        intros [= <- <- <-]. apply IH in E. lia.
    + destruct (scan_format_spec _ s) as [[[sp b'] r]|] eqn:E; [|discriminate].
      intros [= <- <- <-]. apply IH in E. lia.
Qed.

Lemma parse_format_spec_length n conv s n' conv' spec b rest :
  parse_format_spec n conv s = FieldOk n' conv' spec b rest →
  String.length rest < String.length s.
Proof.
  unfold parse_format_spec.
  destruct (scan_format_spec 1 s) as [[[sp b'] r]|] eqn:E; [|discriminate].
  intros [= <- <- <- <- <-]. by apply scan_format_spec_length in E.
Qed.

Lemma parse_field_length s n conv spec b rest :
  parse_field s = FieldOk n conv spec b rest → String.length rest < String.length s.
Proof.
  unfold parse_field.
  destruct (scan_field_name false s) as [name [c r| |]] eqn:E; try discriminate.
  apply scan_field_name_length in E.
  destruct (Ascii.eqb c "!").
  - destruct r as [|conv' [|c2 r2]].
    + intros Hp; discriminate Hp.
    + unfold parse_format_spec; simpl. intros Hp; discriminate Hp.
    + destruct (Ascii.eqb c2 "}").
      * intros [= <- <- <- <- <-]. simpl in E. lia.
      * destruct (Ascii.eqb c2 ":"); [|discriminate].
        intros Hp. apply parse_format_spec_length in Hp. simpl in E. lia.
  - destruct (Ascii.eqb c ":").
    + intros Hp. apply parse_format_spec_length in Hp. lia.
    + intros [= <- <- <- <- <-]. lia.
Qed.

Lemma MarkupIterator_next_literal s lit rest :
  MarkupIterator_next s = NextLiteral lit rest → String.length rest < String.length s.
Proof.
  unfold MarkupIterator_next. destruct s as [|a s]; [discriminate|].
  destruct (scan_literal (String a s)) as [l [[c r]|]] eqn:E.
  - apply scan_literal_length in E.
    destruct r as [|c' r']; [destruct (Ascii.eqb c "}"); discriminate|].
    destruct (Ascii.eqb c c').
    + intros [= <- <-]. simpl in E |- *. lia.
    + destruct (Ascii.eqb c "}"); [discriminate|].
      destruct (parse_field _); discriminate.
  - intros [= <- <-]. simpl. lia.
Qed.

Lemma MarkupIterator_next_field s lit n conv spec b rest :
  MarkupIterator_next s = NextField lit n conv spec b rest →
  String.length rest < String.length s.
Proof.
  unfold MarkupIterator_next. destruct s as [|a s]; [discriminate|].
  destruct (scan_literal (String a s)) as [l [[c r]|]] eqn:E; [|discriminate].
  apply scan_literal_length in E.
  destruct r as [|c' r']; [destruct (Ascii.eqb c "}"); discriminate|].
  destruct (Ascii.eqb c c'); [discriminate|].
  destruct (Ascii.eqb c "}"); [discriminate|].
  destruct (parse_field _) eqn:Ep; [|discriminate].
  intros [= <- <- <- <- <- <-]. apply parse_field_length in Ep. lia.
Qed.

(** Enough fuel: the iteration over [s] is the same for every amount of fuel
    that is at least the length of [s], so [MarkupIterator] never stops for
    want of fuel. *)
Lemma MarkupIterator_fuel fuel s :
  (String.length s ≤ fuel)%nat → MarkupIterator_loop fuel s = MarkupIterator s.
Proof.
  unfold MarkupIterator.
  enough (∀ n s f1 f2, (String.length s ≤ n)%nat → (n ≤ f1)%nat → (n ≤ f2)%nat →
            MarkupIterator_loop f1 s = MarkupIterator_loop f2 s) as Hen.
  { intros Hle. apply (Hen (String.length s)); lia. }
  clear. induction n as [|n IH]; intros s f1 f2 Hs H1 H2.
  - destruct s; [|simpl in Hs; lia]. by destruct f1, f2.
  - destruct f1 as [|f1]; [lia|]. destruct f2 as [|f2]; [lia|]. simpl.
    destruct (MarkupIterator_next s) eqn:E; try done.
    + apply MarkupIterator_next_literal in E. f_equal. apply IH; lia.
    + apply MarkupIterator_next_field in E. do 2 f_equal. apply IH; lia.
Qed.

(** ** Quoting *)

Lemma all_safe_uint d : all_safe (NilEmpty.string_of_uint d) = true.
Proof. induction d; simpl; auto. Qed.

Lemma str_int_safe n : all_safe (str_int n) = true.
Proof.
  unfold str_int. destruct (Z.to_int n) as [d|d]; simpl.
  - destruct d; simpl; auto using all_safe_uint.
  - destruct d; simpl; auto using all_safe_uint.
Qed.

Lemma str_int_nonempty n : str_bool (str_int n) = true.
Proof.
  unfold str_int. destruct (Z.to_int n) as [d|d]; simpl; [|done].
  by destruct d.
Qed.

Lemma shlex_quote_safe s :
  str_bool s = true → all_safe s = true → shlex_quote s = s.
Proof. intros Hs Ha. unfold shlex_quote. by rewrite Hs, Ha. Qed.

(** The decimal form of an integer needs no quotes. *)
Lemma shlex_quote_str_int n : shlex_quote (str_int n) = str_int n.
Proof. apply shlex_quote_safe; [apply str_int_nonempty | apply str_int_safe]. Qed.

Lemma safe_char_not_quote c :
  is_safe_char c = true → Ascii.eqb c "'" = false ∧ Ascii.eqb c dquote = false.
Proof. destruct c as [[] [] [] [] [] [] [] []]; vm_compute; intuition discriminate. Qed.

Lemma sh_word_safe s : all_safe s = true → sh_word Unquoted s = Some s.
Proof.
  induction s as [|c s IH]; simpl; [done|].
  intros [Hc Hs]%andb_true_iff.
  destruct (safe_char_not_quote c Hc) as [-> ->]. rewrite Hc, (IH Hs). done.
Qed.

Lemma sh_word_single s : sh_word InSingle (replace_squote s +:+ "'") = Some s.
Proof.
  induction s as [|c s IH]; [done|]. simpl replace_squote.
  destruct (Ascii.eqb c "'") eqn:Ec.
  - apply Ascii.eqb_eq in Ec as ->. unfold squote_escape. str_norm. simpl. by rewrite IH.
  - str_norm. simpl. by rewrite Ec, IH.
Qed.

(** Whatever the string, the shell reads its quoted form as one word, and
    the value of that word is the string. *)
Lemma shlex_quote_sh_word s : sh_word Unquoted (shlex_quote s) = Some s.
Proof.
  unfold shlex_quote. destruct s as [|c s]; [done|]. simpl negb. cbv iota.
  destruct (all_safe (String c s)) eqn:Ha.
  - by apply sh_word_safe.
  - change (sh_word InSingle (replace_squote (String c s) +:+ "'") = Some (String c s)).
    apply sh_word_single.
Qed.

(** ** Rendering a format string *)

Lemma field_name_split_length s :
  String.length s =
  (String.length (fst (field_name_split s)) + String.length (snd (field_name_split s)))%nat.
Proof.
  induction s as [|c s IH]; [done|]. simpl.
  destruct (_ || _); [done|].
  destruct (field_name_split s) as [first rest]. simpl in *. lia.
Qed.

(** A field name that is its own keyword has no access after the name. *)
Lemma keyword_of_plain k : keyword_of k = Some k → field_name_split k = (k, EmptyString).
Proof.
  unfold keyword_of. pose proof (field_name_split_length k) as Hlen.
  destruct (field_name_split k) as [first rest]; simpl in *.
  destruct (get_integer first); try discriminate.
  destruct (str_bool first); [|discriminate].
  intros [= ->]. destruct rest; [done|]. simpl in Hlen. lia.
Qed.

Section FormatFacts.
Context `{PyObjects}.
Implicit Types (kwargs : gmap string string) (ms : list markup).

Lemma do_markup_app build_spec kwargs ms1 ms2 writer :
  do_markup build_spec kwargs (ms1 ++ ms2)%list writer =
  match do_markup build_spec kwargs ms1 writer with
  | inl e => inl e
  | inr out => do_markup build_spec kwargs ms2 out
  end.
Proof.
  revert writer. induction ms1 as [|m ms1 IH]; intros writer; [done|].
  destruct m as [t|n conv spec b|msg]; simpl; auto.
  destruct (output_markup _ _ _ _ _ _); auto.
Qed.

(** A field whose keyword is not among the arguments raises [KeyError]
    with that keyword. *)
Lemma get_field_object_absent field_name kwargs k :
  keyword_of field_name = Some k → kwargs !! k = None →
  get_field_object field_name kwargs = inl (KeyError k).
Proof.
  unfold keyword_of, get_field_object.
  destruct (field_name_split field_name) as [first rest]; simpl.
  destruct (get_integer first); try discriminate.
  destruct (str_bool first); [|discriminate].
  intros [= ->] ->. done.
Qed.

Lemma output_markup_absent build_spec kwargs field_name conv spec b k :
  keyword_of field_name = Some k → kwargs !! k = None →
  output_markup build_spec kwargs field_name conv spec b = inl (KeyError k).
Proof.
  intros Hk Hn. unfold output_markup. by rewrite (get_field_object_absent _ _ _ Hk Hn).
Qed.

(** A plain field, a name and nothing else, is replaced by the argument of
    that name. *)
Lemma output_markup_plain build_spec kwargs k s :
  keyword_of k = Some k → kwargs !! k = Some s →
  output_markup build_spec kwargs k None EmptyString false = inr s.
Proof.
  intros Hk Hs. pose proof (keyword_of_plain k Hk) as Hsplit.
  unfold keyword_of in Hk. rewrite Hsplit in Hk. simpl in Hk.
  unfold output_markup, get_field_object. rewrite Hsplit.
  destruct (get_integer k); try discriminate.
  destruct (str_bool k); [|discriminate]. simpl. by rewrite Hs.
Qed.

Lemma get_field_object_supplied kwargs field_name :
  supplied kwargs field_name →
  (∃ s, get_field_object field_name kwargs = inr (FStr s)) ∨
  (∃ e, get_field_object field_name kwargs = inl (Error e)).
Proof.
  unfold supplied, get_field_object.
  destruct (field_name_split field_name) as [first rest]; simpl.
  intros [-> [s Hs]].
  destruct (get_integer first); eauto.
  destruct (str_bool first); simpl; eauto.
  rewrite Hs. eauto.
Qed.

Lemma do_conversion_str s c :
  (∃ s', do_conversion (FStr s) c = inr (FStr s')) ∨
  (∃ e, do_conversion (FStr s) c = inl (Error e)).
Proof.
  unfold do_conversion. destruct (_ || _); eauto.
  destruct (Ascii.eqb c "s"); eauto.
  destruct (str_convert s c); eauto.
Qed.

Lemma render_field_str s spec k : render_field (FStr s) spec ≠ inl (KeyError k).
Proof.
  unfold render_field. destruct (negb _); [done|].
  by destruct (str_format_spec s spec).
Qed.

Lemma output_markup_no_KeyError build_spec kwargs field_name conv spec b :
  supplied kwargs field_name →
  (b = true → ∀ k, build_spec spec ≠ inl (KeyError k)) →
  ∀ k, output_markup build_spec kwargs field_name conv spec b ≠ inl (KeyError k).
Proof.
  intros Hs Hb k. unfold output_markup.
  destruct (get_field_object_supplied _ _ Hs) as [[s ->]|[e ->]]; [|done].
  assert ((∃ s', match conv with None => inr (FStr s) | Some c => do_conversion (FStr s) c end
                 = inr (FStr s')) ∨
          (∃ e, match conv with None => inr (FStr s) | Some c => do_conversion (FStr s) c end
                 = inl (Error e))) as [[s' ->]|[e ->]]; [|idtac|done].
  { destruct conv; [apply do_conversion_str|eauto]. }
  destruct b.
  - specialize (Hb eq_refl). destruct (build_spec spec) as [e|expanded] eqn:E.
    + intros [= ->]. by eapply Hb.
    + apply render_field_str.
  - apply render_field_str.
Qed.

Lemma do_markup_no_KeyError build_spec nested kwargs ms :
  (∀ n, In n (markup_placeholders nested ms) → supplied kwargs n) →
  (∀ spec, (∀ n, In n (nested spec) → supplied kwargs n) →
           ∀ k, build_spec spec ≠ inl (KeyError k)) →
  ∀ writer k, do_markup build_spec kwargs ms writer ≠ inl (KeyError k).
Proof.
  intros Hms Hspec. induction ms as [|m ms IH]; intros writer k; [done|].
  destruct m as [t|n conv spec b|msg]; simpl in *.
  - by apply IH.
  - destruct (output_markup _ _ _ _ _ _) as [e|out] eqn:E.
    + intros [= ->]. revert E. apply output_markup_no_KeyError.
      * apply Hms. by left.
      * intros ->. apply Hspec. intros n' Hn'. apply Hms. right.
        apply in_or_app. by left.
    + apply IH. intros n' Hn'. apply Hms. right. apply in_or_app. by right.
  - done.
Qed.

(** When every name the format string refers to is supplied, the rendering
    does not raise [KeyError]. *)
Lemma build_string_no_KeyError depth kwargs : ∀ input,
  (∀ n, In n (placeholders_depth depth input) → supplied kwargs n) →
  ∀ k, build_string depth kwargs input ≠ inl (KeyError k).
Proof.
  induction depth as [|d IH]; intros input Hs k; [done|].
  simpl. eapply do_markup_no_KeyError; [exact Hs|].
  intros spec Hspec. by apply IH.
Qed.

Lemma do_markup_fails build_spec nested kwargs ms :
  (∃ n, In n (markup_placeholders nested ms) ∧ absent kwargs n) →
  (∀ spec, (∃ n, In n (nested spec) ∧ absent kwargs n) → ∃ e, build_spec spec = inl e) →
  ∀ writer, ∃ e, do_markup build_spec kwargs ms writer = inl e.
Proof.
  intros Hms Hspec. induction ms as [|m ms IH]; intros writer.
  { by destruct Hms as (n & [] & _). }
  destruct m as [t|n conv spec b|msg]; simpl in *.
  - by apply IH.
  - destruct Hms as (n' & Hin & Habs).
    destruct Hin as [<-|Hin].
    { destruct Habs as (k & Hk & Hnone).
      rewrite (output_markup_absent _ _ _ _ _ _ _ Hk Hnone). eauto. }
    apply in_app_or in Hin as [Hin|Hin].
    + destruct b; [|done].
      destruct (Hspec spec) as [e He]; [eauto|].
      unfold output_markup. destruct (get_field_object n kwargs); [eauto|].
      destruct (match conv with None => _ | Some c => _ end); [eauto|].
      rewrite He. eauto.
    + destruct (output_markup _ _ _ _ _ _); [eauto|]. apply IH. eauto.
  - eauto.
Qed.

(** When the format string refers to a name that is not supplied, the
    rendering raises. *)
Lemma build_string_fails depth kwargs : ∀ input,
  (∃ n, In n (placeholders_depth depth input) ∧ absent kwargs n) →
  ∃ e, build_string depth kwargs input = inl e.
Proof.
  induction depth as [|d IH]; intros input Hs; [eauto|].
  simpl. eapply do_markup_fails; [exact Hs|]. intros spec Hspec. by apply IH.
Qed.

(** The first field that fails decides the exception: when the markup
    before a field renders and the field's keyword is not supplied, the
    rendering raises [KeyError] with that keyword. *)
Lemma str_format_first_absent template kwargs before field_name conv spec b after out k :
  MarkupIterator template = (before ++ MField field_name conv spec b :: after)%list →
  do_markup (build_string 1 kwargs) kwargs before EmptyString = inr out →
  keyword_of field_name = Some k → kwargs !! k = None →
  str_format template kwargs = inl (KeyError k).
Proof.
  intros Hm Hb Hk Hn. unfold str_format.
  change (build_string 2 kwargs template) with
    (do_markup (build_string 1 kwargs) kwargs (MarkupIterator template) EmptyString).
  rewrite Hm, do_markup_app, Hb. simpl.
  by rewrite (output_markup_absent _ _ _ _ _ _ _ Hk Hn).
Qed.

End FormatFacts.

(** ** base64 *)

Lemma below_64 (P : N → bool) :
  forallb P (map N.of_nat (seq 0 64)) = true → ∀ n, (n < 64)%N → P n = true.
Proof.
  intros Hall n Hn. rewrite forallb_forall in Hall. apply Hall.
  apply in_map_iff. exists (N.to_nat n). split; [lia|]. apply in_seq. lia.
Qed.

Lemma b64_index_char n : (n < 64)%N → b64_index (b64_char n) = Some n.
Proof.
  intros Hn.
  pose proof (below_64 (fun n => match b64_index (b64_char n) with
                                 | Some m => N.eqb m n
                                 | None => false
                                 end) eq_refl n Hn) as Hc.
  simpl in Hc. destruct (b64_index (b64_char n)); [|done].
  by apply N.eqb_eq in Hc as ->.
Qed.

Lemma b64_char_not_pad n : (n < 64)%N → Ascii.eqb (b64_char n) "=" = false.
Proof.
  intros Hn.
  pose proof (below_64 (fun n => negb (Ascii.eqb (b64_char n) "=")) eq_refl n Hn) as Hc.
  by apply negb_true_iff in Hc.
Qed.

Lemma byte_below_256 x : (Byte.to_N x < 256)%N.
Proof. pose proof (Byte.to_N_bounded x). lia. Qed.

Lemma sextets a b c :
  (a < 256 → b < 256 → c < 256 →
   a / 4 < 64 ∧ a mod 4 * 16 + b / 16 < 64 ∧ b mod 16 * 4 + c / 64 < 64 ∧ c mod 64 < 64 ∧
   a mod 4 * 16 < 64 ∧ b mod 16 * 4 < 64 ∧
   a / 4 * 4 + (a mod 4 * 16 + b / 16) / 16 = a ∧
   (a mod 4 * 16 + b / 16) mod 16 * 16 + (b mod 16 * 4 + c / 64) / 4 = b ∧
   (b mod 16 * 4 + c / 64) mod 4 * 64 + c mod 64 = c ∧
   a / 4 * 4 + (a mod 4 * 16) / 16 = a ∧
   (a mod 4 * 16 + b / 16) mod 16 * 16 + (b mod 16 * 4) / 4 = b)%N.
Proof.
  intros Ha Hb Hc.
  repeat split; zify; Z.to_euclidean_division_equations; lia.
Qed.

Lemma b64_roundtrip_bounded n : ∀ data,
  (length data ≤ n)%nat → b64decode (b64encode data) = Some data.
Proof.
  induction n as [n IH] using lt_wf_ind. intros data Hlen.
  destruct data as [|x [|y [|z rest]]]; [done|..].
  - pose proof (byte_below_256 x) as Hx.
    destruct (sextets (Byte.to_N x) 0 0 Hx) as (H1 & _ & _ & _ & H2 & _ & _ & _ & _ & H3 & _);
      [done..|].
    cbn [b64encode b64decode].
    rewrite ?b64_index_char by done. cbn [mbind option_bind].
    simpl Ascii.eqb. cbn [str_bool].
    rewrite H3, Byte.of_to_N. done.
  - pose proof (byte_below_256 x) as Hx. pose proof (byte_below_256 y) as Hy.
    destruct (sextets (Byte.to_N x) (Byte.to_N y) 0 Hx Hy)
      as (H1 & H2 & _ & _ & _ & H3 & H4 & _ & _ & _ & H5); [done|].
    cbn [b64encode b64decode].
    rewrite ?b64_index_char by done. cbn [mbind option_bind].
    simpl Ascii.eqb. cbn [str_bool].
    rewrite (b64_char_not_pad _ H3).
    rewrite ?b64_index_char by done. cbn [mbind option_bind].
    rewrite H4, H5, !Byte.of_to_N. done.
  - pose proof (byte_below_256 x) as Hx. pose proof (byte_below_256 y) as Hy.
    pose proof (byte_below_256 z) as Hz.
    destruct (sextets (Byte.to_N x) (Byte.to_N y) (Byte.to_N z) Hx Hy Hz)
      as (H1 & H2 & H3 & H4 & _ & _ & H5 & H6 & H7 & _).
    cbn [b64encode b64decode].
    rewrite ?b64_index_char by done. cbn [mbind option_bind].
    rewrite (b64_char_not_pad _ H4).
    rewrite ?b64_index_char by done. cbn [mbind option_bind].
    rewrite H5, H6, H7, !Byte.of_to_N. cbn [mbind option_bind].
    rewrite (IH (length rest)); [done| |done]. simpl in Hlen. lia.
Qed.

(** Decoding the encoding of a sequence of bytes gives the sequence back. *)
Lemma b64decode_b64encode data : b64decode (b64encode data) = Some data.
Proof. by apply (b64_roundtrip_bounded (length data)). Qed.

(** ** The synthesizer *)

Import SubprocessSynthesizer.

Section ValuesFacts.
Implicit Types (request : TTSRequest) (out : PurePosixPath).

Lemma template_values_extra request out k s :
  extra request !! k = Some s → template_values request out !! k = Some (VStr s).
Proof.
  intros Hk. unfold template_values, dict_update.
  apply lookup_union_Some_l. by rewrite lookup_fmap, Hk.
Qed.

Lemma template_values_builtin request out k :
  extra request !! k = None →
  template_values request out !! k =
  ({[ "text" := VStr (text request);
      "output" := VStr (path_str out);
      "reference_audio" := VStr (or_str (reference_audio request) EmptyString);
      "speaker" := VStr (or_str (speaker request) EmptyString);
      "seed" := match seed request with
                | Some n => VInt n
                | None => VStr EmptyString
                end ]} : gmap string value) !! k.
Proof.
  intros Hk. unfold template_values, dict_update.
  apply lookup_union_r. by rewrite lookup_fmap, Hk.
Qed.

Lemma template_values_absent request out k :
  ¬ In k builtin_names → extra request !! k = None →
  template_values request out !! k = None.
Proof.
  intros Hb Hk. rewrite template_values_builtin by done.
  unfold builtin_names in Hb. simpl in Hb.
  repeat (rewrite lookup_insert_ne by (intros <-; tauto)).
  apply lookup_singleton_ne. intros <-; tauto.
Qed.

Lemma template_values_supplied request out k :
  In k builtin_names → is_Some (template_values request out !! k).
Proof.
  intros Hb. destruct (extra request !! k) as [s|] eqn:Hk.
  { rewrite (template_values_extra _ _ _ _ Hk). eauto. }
  rewrite template_values_builtin by done.
  unfold builtin_names in Hb. simpl in Hb.
  destruct Hb as [<-|[<-|[<-|[<-|[<-|[]]]]]]; by simplify_map_eq.
Qed.

Lemma template_values_seed request out :
  extra request !! "seed" = None →
  template_values request out !! "seed" =
  Some (match seed request with Some n => VInt n | None => VStr EmptyString end).
Proof. intros Hk. rewrite template_values_builtin by done. by simplify_map_eq. Qed.

End ValuesFacts.

Section ServiceFacts.
Context `{PyObjects} `{OS}.
Implicit Types (handler : SubprocessSynthesizer) (request : TTSRequest) (w : world).

(** The ways through [synthesize], once the temporary directory is made. *)
Lemma synthesize_unfold handler request w tmpdir w1 :
  mkdtemp w = (inr tmpdir, w1) →
  SubprocessSynthesizer.synthesize handler request w =
  let out := path_str (output_path tmpdir request) in
  match _render_command handler (template_values request (output_path tmpdir request)) with
  | inl e => (inl e, rmtree tmpdir w1, [])
  | inr command =>
      if str_bool command then
        let call := {| call_command := command; call_cwd := workdir handler |} in
        match run_shell command (workdir handler) w1 with
        | (inl e, w2) => (inl (Unhandled e), rmtree tmpdir w2, [call])
        | (inr returncode, w2) =>
            if (returncode =? 0)%Z then
              match path_exists out w2 with
              | inl e => (inl (Unhandled e), rmtree tmpdir w2, [call])
              | inr false => (inl (OutputMissingError out), rmtree tmpdir w2, [call])
              | inr true =>
                  match read_bytes out w2 with
                  | inl e => (inl (Unhandled e), rmtree tmpdir w2, [call])
                  | inr data => (inr data, rmtree tmpdir w2, [call])
                  end
              end
            else (inl (ExecutionError returncode), rmtree tmpdir w2, [call])
        end
      else (inl ConfigurationError, rmtree tmpdir w1, [])
  end.
Proof.
  intros Hmk. unfold synthesize, with_TemporaryDirectory. rewrite Hmk.
  cbv zeta. unfold bind, lift, raise, subprocess_run, observe.
  destruct (_render_command _ _) as [e|command]; [done|].
  destruct (str_bool command); simpl; [|done].
  destruct (run_shell _ _ _) as [[e|rc] w2]; [done|].
  destruct (rc =? 0)%Z; [|done].
  destruct (path_exists _ _) as [e|[]]; simpl; try done.
  by destruct (read_bytes _ _).
Qed.

Lemma synthesize_no_tmpdir handler request w e w1 :
  mkdtemp w = (inl e, w1) →
  SubprocessSynthesizer.synthesize handler request w = (inl (Unhandled e), w1, []).
Proof. intros Hmk. unfold synthesize, with_TemporaryDirectory. by rewrite Hmk. Qed.

(** When the rendering raises, [synthesize] raises and runs nothing. *)
Lemma synthesize_render_raises handler request w :
  (∀ out, ∃ e, _render_command handler (template_values request out) = inl e) →
  ∃ e w', SubprocessSynthesizer.synthesize handler request w = (inl e, w', []).
Proof.
  intros Hr. destruct (mkdtemp w) as [[e|tmpdir] w1] eqn:Hmk.
  - rewrite (synthesize_no_tmpdir _ _ _ _ _ Hmk). eauto.
  - rewrite (synthesize_unfold _ _ _ _ _ Hmk). cbv zeta.
    destruct (Hr (output_path tmpdir request)) as [e ->]. eauto.
Qed.

(** A successful [synthesize]: the command ran with exit status 0 and the
    result is what [read_bytes] gives for the output path afterwards. *)
Lemma synthesize_success handler request w audio w' calls :
  SubprocessSynthesizer.synthesize handler request w = (inr audio, w', calls) →
  ∃ tmpdir w1 command w2,
    mkdtemp w = (inr tmpdir, w1) ∧
    _render_command handler (template_values request (output_path tmpdir request))
      = inr command ∧
    run_shell command (workdir handler) w1 = (inr 0%Z, w2) ∧
    read_bytes (path_str (output_path tmpdir request)) w2 = inr audio ∧
    w' = rmtree tmpdir w2 ∧
    calls = [{| call_command := command; call_cwd := workdir handler |}].
Proof.
  destruct (mkdtemp w) as [[e|tmpdir] w1] eqn:Hmk.
  { by rewrite (synthesize_no_tmpdir _ _ _ _ _ Hmk). }
  rewrite (synthesize_unfold _ _ _ _ _ Hmk). cbv zeta.
  destruct (_render_command _ _) as [e|command] eqn:Hr; [done|].
  destruct (str_bool command); [|done].
  destruct (run_shell _ _ _) as [[e|rc] w2] eqn:Hrun; [done|].
  destruct (rc =? 0)%Z eqn:Hrc; [|done]. apply Z.eqb_eq in Hrc as ->.
  destruct (path_exists _ _) as [e|[]]; [done| |done].
  destruct (read_bytes _ _) as [e|data] eqn:Hread; [done|].
  intros [= <- <- <-]. by exists tmpdir, w1, command, w2.
Qed.

Lemma render_command_str_format handler values :
  _render_command handler values =
  match str_format (template handler) (sanitize <$> values) with
  | inl (KeyError key) => inl (TemplateError key)
  | inl (Error e) => inl (Unhandled e)
  | inr command => inr (strip command)
  end.
Proof. reflexivity. Qed.

End ServiceFacts.

(** ** Validation *)

(** An accepted request carries the string the body has under [text]. *)
Lemma validated_text `{Pydantic} body request :
  TTSRequest_validate body = Some request → body_text body = Some (text request).
Proof.
  destruct body as [| | | | | |members]; try discriminate. simpl.
  destruct (json_get "text" members ≫= as_str) as [t|]; [|discriminate]. simpl.
  destruct (optional_field as_str (json_get "reference_audio" members)); [|discriminate].
  destruct (optional_field as_str (json_get "speaker" members)); [|discriminate].
  destruct (optional_field as_int (json_get "seed" members)); [|discriminate].
  destruct (default_field as_str "wav" (json_get "output_format" members)); [|discriminate].
  destruct (default_field as_dict ∅ (json_get "extra" members)); [|discriminate].
  simpl. by intros [= <-].
Qed.

(** A body with a text and nothing else is accepted, whatever the text. *)
Lemma any_text_is_accepted `{Pydantic} t :
  TTSRequest_validate (JObject [("text", JStr t)]) = Some (request_of_text t).
Proof. reflexivity. Qed.

(** ** The values of the placeholders *)

(** A value is replaced either by its quoted string form, which the shell
    reads as one word whose value is that string form, or, when it counts as
    false, by the empty string. *)
Lemma sanitize_cases v :
  (value_bool v = true ∧ sanitize v = shlex_quote (value_str v)
   ∧ sh_word Unquoted (sanitize v) = Some (value_str v))
  ∨ (value_bool v = false ∧ sanitize v = EmptyString).
Proof.
  unfold sanitize. destruct (value_bool v); [left|right; done].
  repeat split. apply shlex_quote_sh_word.
Qed.

(** X1: what a plain field [{k}] of the template is replaced with, for a value
    [v] of the mapping under [k]: the quoted string form of [v], one word for
    the shell, when [v] counts as true, and nothing when it counts as
    false. *)
Lemma placeholder_substitution `{PyObjects} build_spec (values : gmap string value) k v :
  keyword_of k = Some k → values !! k = Some v →
  output_markup build_spec (sanitize <$> values) k None EmptyString false
    = inr (sanitize v)
  ∧ ((value_bool v = true ∧ sanitize v = shlex_quote (value_str v)
      ∧ sh_word Unquoted (sanitize v) = Some (value_str v))
     ∨ (value_bool v = false ∧ sanitize v = EmptyString)).
Proof.
  intros Hk Hv. split; [|apply sanitize_cases].
  apply output_markup_plain; [done|]. by rewrite lookup_fmap, Hv.
Qed.

Lemma placeholder_substitution_example :
  @output_markup plain_fields (fun _ => inr EmptyString)
    (sanitize <$> ({[ "text" := VStr "it's a $x" ]} : gmap string value))
    "text" None EmptyString false
  = inr ("'it" +:+ squote_escape +:+ "s a $x'")
  ∧ sh_word Unquoted ("'it" +:+ squote_escape +:+ "s a $x'") = Some "it's a $x".
Proof.
  destruct (@placeholder_substitution plain_fields (fun _ => inr EmptyString)
              {[ "text" := VStr "it's a $x" ]} "text" (VStr "it's a $x"))
    as [Hout [(_ & _ & Hword)|[Hfalse _]]];
    [reflexivity | reflexivity | | discriminate Hfalse].
  split; [exact Hout | exact Hword].
Defined.

(** X2: a seed other than zero is replaced by its decimal form, and a request
    with no seed by the empty string, when [extra] does not override the
    seed. *)
Lemma seed_substitution request out :
  extra request !! "seed" = None →
  seed request ≠ Some 0%Z →
  (sanitize <$> template_values request out) !! "seed" =
  Some (match seed request with
        | Some n => str_int n
        | None => EmptyString
        end).
Proof.
  intros Hx Hz. rewrite lookup_fmap, template_values_seed by done.
  destruct (seed request) as [n|]; [|done]. simpl. unfold sanitize. simpl.
  destruct (Z.eqb_spec n 0) as [->|_]; [done|]. simpl.
  by rewrite shlex_quote_str_int.
Qed.

Lemma seed_substitution_example :
  (sanitize <$> template_values
     {| text := "hello"; reference_audio := None; speaker := None;
        seed := Some (-42)%Z; output_format := "wav"; extra := ∅ |}
     (Path "/tmp/tmp0/output.wav")) !! "seed" = Some "-42".
Proof.
  rewrite (seed_substitution
             {| text := "hello"; reference_audio := None; speaker := None;
                seed := Some (-42)%Z; output_format := "wav"; extra := ∅ |}
             (Path "/tmp/tmp0/output.wav")); [reflexivity | reflexivity | discriminate].
Defined.

(** * The claims of the specification *)

(** The dictionary the endpoint returns never passes the validation against
    [Dict[str, str]]: its value under [bytes] is an integer. *)
Lemma response_dict_bytes r :
  response_dict r !! "bytes" = Some (VInt (bytes r)).
Proof. unfold response_dict. by simplify_map_eq. Qed.

Lemma response_dict_invalid r :
  Dict_str_str_validate (response_dict r) = None.
Proof.
  unfold Dict_str_str_validate. case_decide as Hall; [|done].
  destruct (map_Forall_lookup_1 _ _ _ _ Hall (response_dict_bytes r)) as [? [=]].
Qed.

(** The dictionary of [GET /health] passes it. *)
Lemma get_health_200 :
  App.get_health = Response200 {[ "status" := "ok" ]}.
Proof. vm_compute. reflexivity. Qed.

(** A seed given as a numeral in a string, as a boolean or as a [float]
    without a fraction is accepted. *)
Lemma lax_seed_examples :
  seed <$> @TTSRequest_validate decimal_strings
             (JObject [("text", JStr "hi"); ("seed", JStr "42")]) = Some (Some 42%Z)
  ∧ seed <$> @TTSRequest_validate decimal_strings
               (JObject [("text", JStr "hi"); ("seed", JBool true)]) = Some (Some 1%Z)
  ∧ seed <$> @TTSRequest_validate decimal_strings
               (JObject [("text", JStr "hi"); ("seed", JFloat (S754_finite false 3 1))])
    = Some (Some 6%Z)
  ∧ @TTSRequest_validate decimal_strings
      (JObject [("text", JStr "hi"); ("seed", JFloat (S754_finite false 3 (-1)))]) = None
  ∧ @TTSRequest_validate decimal_strings
      (JObject [("text", JStr "hi"); ("seed", JStr "x")]) = None.
Proof. repeat split; vm_compute; reflexivity. Qed.

Section Claims.
Context `{PyObjects} `{OS} `{Pydantic}.
Implicit Types (handler : SubprocessSynthesizer) (request : TTSRequest) (w : world).

(** C1: every non-empty value of the mapping passed to render is replaced
    by its quoted string form.  The code does not do so for the integer 0:
    with the mapping that sends [seed] to 0 and the template
    [--seed {seed}], the rendered command is [--seed], with nothing for the
    seed, although the string form of 0 is [0] and its quoted form is [0]. *)
Theorem zero_value_is_not_quoted :
  _render_command {| template := "--seed {seed}"; workdir := "/models" |}
    {[ "seed" := VInt 0 ]} = inr "--seed"
  ∧ value_str (VInt 0) = "0"
  ∧ shlex_quote (value_str (VInt 0)) = "0".
Proof. repeat split; reflexivity. Qed.

(** C2, as amended: when the template refers to a name [k] that is neither
    one of the five built-in names nor a key of [extra], [synthesize] raises
    and runs no process; and when the field that refers to [k] is the first
    piece of the template that fails (the markup before it renders), what it
    raises is the TemplateError that names [k]. *)
Theorem absent_placeholder_raises handler request w k :
  ¬ In k builtin_names → extra request !! k = None →
  (∀ n, In n (placeholders (template handler)) → keyword_of n = Some k →
        ∃ e w', SubprocessSynthesizer.synthesize handler request w = (inl e, w', []))
  ∧
  (∀ tmpdir w1 before n conv spec b after out,
     mkdtemp w = (inr tmpdir, w1) →
     MarkupIterator (template handler) = (before ++ MField n conv spec b :: after)%list →
     keyword_of n = Some k →
     (let kwargs := sanitize <$> template_values request (output_path tmpdir request) in
      do_markup (build_string 1 kwargs) kwargs before EmptyString = inr out) →
     SubprocessSynthesizer.synthesize handler request w =
       (inl (TemplateError k), rmtree tmpdir w1, [])).
Proof.
  intros Hb Hx.
  assert (∀ out, (sanitize <$> template_values request out) !! k = None) as Hnone.
  { intros out. by rewrite lookup_fmap, template_values_absent. }
  split.
  - intros n Hn Hk. apply synthesize_render_raises. intros out.
    rewrite render_command_str_format.
    destruct (build_string_fails 2 (sanitize <$> template_values request out)
                (template handler)) as [e He].
    { exists n. split; [exact Hn|]. exists k. auto. }
    unfold str_format. rewrite He. destruct e; eauto.
  - intros tmpdir w1 before n conv spec b after out Hmk Hm Hk Hpre.
    rewrite (synthesize_unfold _ _ _ _ _ Hmk). cbv zeta.
    rewrite render_command_str_format.
    by rewrite (str_format_first_absent _ _ _ _ _ _ _ _ _ _ Hm Hpre Hk (Hnone _)).
Qed.



(** C5: when the synthesis succeeds with the bytes [audio], the handler
    returns the base64 encoding of [audio], which decodes to [audio], the
    request's output format and the length of [audio]; the length is an
    integer, under [bytes], so the returned dictionary fails the validation
    against the declared return type, and the request is answered with
    status 500, not 200. *)
Theorem successful_synthesis_is_answered_500 handler body request w audio w' calls :
  TTSRequest_validate body = Some request →
  SubprocessSynthesizer.synthesize handler request w = (inr audio, w', calls) →
  let response := {| audio_base64 := b64encode audio;
                     format := output_format request;
                     bytes := Z.of_nat (length audio) |} in
  App.synthesize handler request w = (inr response, w', calls)
  ∧ b64decode (audio_base64 response) = Some audio
  ∧ response_dict response !! "bytes" = Some (VInt (Z.of_nat (length audio)))
  ∧ Dict_str_str_validate (response_dict response) = None
  ∧ App.post_synthesize handler body w = (ResponseInternalServerError, w', calls)
  ∧ response_status ResponseInternalServerError = 500%Z.
Proof.
  intros Hv Hs response.
  assert (App.synthesize handler request w = (inr response, w', calls)) as Hh.
  { unfold App.synthesize, bind, ret. rewrite Hs. by rewrite app_nil_r. }
  split; [exact Hh|]. split; [apply b64decode_b64encode|].
  split; [apply response_dict_bytes|].
  split; [apply response_dict_invalid|]. split; [|done].
  unfold App.post_synthesize. rewrite Hv, Hh.
  by rewrite response_dict_invalid.
Qed.

(** C6: a seed that is present is substituted by its decimal form, 0
    included.  The code does not do so for the seed 0: the mapping holds the
    integer 0 under [seed], and the value substituted for it is the empty
    string, although the decimal form of 0 is [0]. *)
Theorem seed_zero_is_dropped out :
  let request := {| text := "hello"; reference_audio := None; speaker := None;
                    seed := Some 0%Z; output_format := "wav"; extra := ∅ |} in
  template_values request out !! "seed" = Some (VInt 0)
  ∧ (sanitize <$> template_values request out) !! "seed" = Some EmptyString
  ∧ str_int 0 = "0"
  ∧ _render_command (__init__ ∅) (template_values request (Path "/tmp/tmp0/output.wav"))
    = inr ("python /models/scripts/infer.py --text hello " +:+
           "--output /tmp/tmp0/output.wav --reference_audio  --speaker  --seed").
Proof.
  intros request.
  assert (template_values request out !! "seed" = Some (VInt 0)) as Hs.
  { by rewrite template_values_seed. }
  rewrite lookup_fmap, Hs. repeat split.
Qed.

(** C7, as amended: [text] is required and is a string: a body with no
    [text], or with a [text] that is not a string, is rejected by the
    validation and never reaches the synthesis. *)
Theorem missing_text_is_rejected handler body w :
  body_text body = None →
  TTSRequest_validate body = None
  ∧ App.post_synthesize handler body w = (ResponseValidationError, w, []).
Proof.
  intros Hm.
  assert (TTSRequest_validate body = None) as Hv.
  { destruct (TTSRequest_validate body) as [request|] eqn:E; [|done].
    apply validated_text in E. congruence. }
  split; [done|]. unfold App.post_synthesize. by rewrite Hv.
Qed.

(** C8: with an empty [extra] and a template whose placeholders are all
    among the five built-in names, the rendering raises no TemplateError. *)
Theorem builtin_template_never_raises_TemplateError handler request out :
  extra request = ∅ →
  (∀ n, In n (placeholders (template handler)) → In n builtin_names) →
  ∀ k, _render_command handler (template_values request out) ≠ inl (TemplateError k).
Proof.
  intros Hx Hp k. rewrite render_command_str_format.
  destruct (str_format _ _) as [[key|e]|command] eqn:E; [|done..].
  exfalso. revert E. apply build_string_no_KeyError.
  intros n Hn. apply Hp in Hn.
  assert (field_name_split n = (n, EmptyString)) as Hsplit.
  { unfold builtin_names in Hn. simpl in Hn.
    destruct Hn as [<-|[<-|[<-|[<-|[<-|[]]]]]]; reflexivity. }
  split; rewrite Hsplit; simpl; [done|].
  rewrite lookup_fmap. apply fmap_is_Some. by apply template_values_supplied.
Qed.

(** C9: when the rendered command is empty once its leading and trailing
    whitespace is removed, [synthesize] raises the ConfigurationError and
    runs no process. *)
Theorem empty_command_raises_ConfigurationError handler request w tmpdir w1 raw :
  mkdtemp w = (inr tmpdir, w1) →
  str_format (template handler)
    (sanitize <$> template_values request (output_path tmpdir request)) = inr raw →
  strip raw = EmptyString →
  SubprocessSynthesizer.synthesize handler request w =
    (inl (HTTPException 500
            "Rendered command is empty. Check INDEX_TTS_COMMAND_TEMPLATE."),
     rmtree tmpdir w1, []).
Proof.
  intros Hmk Hf Hs. rewrite (synthesize_unfold _ _ _ _ _ Hmk). cbv zeta.
  rewrite render_command_str_format, Hf, Hs. done.
Qed.


End Claims.

(** * The claims on concrete inputs *)


(** C2 as the specification states it fails: the template [{0} {voice}]
    refers to [voice], which nothing supplies, and [synthesize] raises an
    [IndexError] that nothing catches, not a TemplateError. *)
Lemma absent_placeholder_counterexample :
  let handler := {| template := "{0} {voice}"; workdir := "/models" |} in
  let request := request_of_text "hello" in
  In "voice" (placeholders (template handler))
  ∧ keyword_of "voice" = Some "voice"
  ∧ ¬ In "voice" builtin_names
  ∧ extra request !! "voice" = None
  ∧ @SubprocessSynthesizer.synthesize plain_fields (toy_os (exit_with 0)) handler request empty_world =
      (inl (Unhandled (IndexError
              "Replacement index 0 out of range for positional args tuple")),
       {| files := ∅; created := 1 |}, []).
Proof.
  repeat split; try (vm_compute; reflexivity).
  - vm_compute. tauto.
  - vm_compute. intuition discriminate.
Qed.

(** C2 as amended, at work: with [{0} {voice}] the synthesis raises and runs
    nothing; with a template in which [voice] is the first field that fails,
    it raises the TemplateError that names [voice]. *)
Lemma absent_placeholder_witness :
  (∃ e w', @SubprocessSynthesizer.synthesize plain_fields (toy_os (exit_with 0))
             {| template := "{0} {voice}"; workdir := "/models" |}
             (request_of_text "hello") empty_world = (inl e, w', []))
  ∧ @SubprocessSynthesizer.synthesize plain_fields (toy_os (exit_with 0))
      {| template := "tts --text {text} --voice {voice}"; workdir := "/models" |}
      (request_of_text "hello") empty_world =
    (inl (HTTPException 500 "Missing placeholder 'voice' in INDEX_TTS_COMMAND_TEMPLATE."),
     {| files := ∅; created := 1 |}, []).
Proof.
  split.
  - destruct (@absent_placeholder_raises plain_fields (toy_os (exit_with 0))
                {| template := "{0} {voice}"; workdir := "/models" |}
                (request_of_text "hello") empty_world "voice") as [Hany _].
    + vm_compute. intuition discriminate.
    + reflexivity.
    + apply (Hany "voice"); [vm_compute; tauto | reflexivity].
  - destruct (@absent_placeholder_raises plain_fields (toy_os (exit_with 0))
                {| template := "tts --text {text} --voice {voice}"; workdir := "/models" |}
                (request_of_text "hello") empty_world "voice") as [_ Hfirst].
    + vm_compute. intuition discriminate.
    + reflexivity.
    + rewrite (Hfirst "/tmp/tmp0" {| files := ∅; created := 1 |}
                 [MLiteral "tts --text "; MField "text" None "" false; MLiteral " --voice "]
                 "voice" None "" false [] "tts --text hello --voice ");
        [vm_compute; reflexivity | reflexivity | vm_compute; reflexivity
        | reflexivity | vm_compute; reflexivity].
Defined.


(** C5 at work: a command that writes four bytes to the output path; the
    handler returns their encoding and their number, and the client
    receives status 500. *)
Lemma successful_synthesis_witness :
  @App.synthesize plain_fields (toy_os write_stub)
    {| template := "stub {output}"; workdir := "/models" |}
    (request_of_text "hello") empty_world =
  (inr {| audio_base64 := "UklGRg=="; format := "wav"; bytes := 4 |},
   {| files := ∅; created := 1 |},
   [{| call_command := "stub /tmp/tmp0/output.wav"; call_cwd := "/models" |}])
  ∧ @App.post_synthesize plain_fields (toy_os write_stub) decimal_strings
      {| template := "stub {output}"; workdir := "/models" |}
      (JObject [("text", JStr "hello"); ("output_format", JStr "wav")]) empty_world =
    (ResponseInternalServerError,
     {| files := ∅; created := 1 |},
     [{| call_command := "stub /tmp/tmp0/output.wav"; call_cwd := "/models" |}]).
Proof.
  destruct (@successful_synthesis_is_answered_500 plain_fields (toy_os write_stub)
              decimal_strings
              {| template := "stub {output}"; workdir := "/models" |}
              (JObject [("text", JStr "hello"); ("output_format", JStr "wav")])
              (request_of_text "hello") empty_world stub_data
              {| files := ∅; created := 1 |}
              [{| call_command := "stub /tmp/tmp0/output.wav"; call_cwd := "/models" |}])
    as (Hh & _ & _ & _ & Hpost & _).
  - vm_compute. reflexivity.
  - vm_compute. reflexivity.
  - split; [rewrite Hh; reflexivity | exact Hpost].
Defined.

(** C7 as the specification states it fails: a body whose text is the empty
    string is accepted, and the synthesis runs the command. *)
Lemma empty_text_counterexample :
  @TTSRequest_validate decimal_strings (JObject [("text", JStr "")])
  = Some (request_of_text "")
  ∧ @App.post_synthesize plain_fields (toy_os (exit_with 0)) decimal_strings (__init__ ∅)
      (JObject [("text", JStr "")]) empty_world =
    (ResponseHTTPException 500 "Expected audio file not found at /tmp/tmp0/output.wav",
     {| files := ∅; created := 1 |},
     [{| call_command :=
           "python /models/scripts/infer.py --text  --output /tmp/tmp0/output.wav --reference_audio  --speaker  --seed";
         call_cwd := "/models" |}]).
Proof. split; vm_compute; reflexivity. Qed.

(** C8 at work: the default template. *)
Lemma builtin_template_witness :
  @_render_command plain_fields (__init__ ∅)
    (template_values (request_of_text "hello") (Path "/tmp/tmp0/output.wav"))
  ≠ inl (TemplateError "text").
Proof.
  apply (@builtin_template_never_raises_TemplateError plain_fields
           (__init__ ∅) (request_of_text "hello") (Path "/tmp/tmp0/output.wav")).
  - reflexivity.
  - vm_compute. tauto.
Defined.

(** C9 at work: a template that renders to blanks. *)
Lemma empty_command_witness :
  @SubprocessSynthesizer.synthesize plain_fields (toy_os (exit_with 0))
    {| template := " {speaker} "; workdir := "/models" |}
    (request_of_text "hello") empty_world =
  (inl (HTTPException 500 "Rendered command is empty. Check INDEX_TTS_COMMAND_TEMPLATE."),
   {| files := ∅; created := 1 |}, []).
Proof.
  rewrite (@empty_command_raises_ConfigurationError plain_fields (toy_os (exit_with 0))
             {| template := " {speaker} "; workdir := "/models" |}
             (request_of_text "hello") empty_world
             "/tmp/tmp0" {| files := ∅; created := 1 |} "  ");
    [vm_compute; reflexivity | reflexivity | vm_compute; reflexivity | reflexivity].
Defined.


(** C7 as amended, at work: a body with a speaker and no text. *)
Lemma missing_text_witness :
  @TTSRequest_validate decimal_strings (JObject [("speaker", JStr "bob")]) = None
  ∧ @App.post_synthesize plain_fields (toy_os (exit_with 0)) decimal_strings (__init__ ∅)
      (JObject [("speaker", JStr "bob")]) empty_world =
    (ResponseValidationError, empty_world, []).
Proof.
  apply (@missing_text_is_rejected plain_fields (toy_os (exit_with 0))
           decimal_strings (__init__ ∅)
           (JObject [("speaker", JStr "bob")]) empty_world).
  reflexivity.
Defined.

(** * Further properties of the service *)

(** ** Strings *)

Lemma str_app_assoc s t u : (s +:+ t) +:+ u = s +:+ (t +:+ u).
Proof. induction s as [|c s IH]; [done|]. str_norm. by rewrite IH. Qed.

Lemma lstrip_head s :
  lstrip s = EmptyString ∨ ∃ c r, lstrip s = String c r ∧ isspace c = false.
Proof.
  induction s as [|c s IH]; [by left|]. simpl.
  destruct (isspace c) eqn:Hc; [done|]. right. eauto.
Qed.

Lemma rstrip_cons c r : isspace c = false → rstrip (String c r) = String c (rstrip r).
Proof. intros Hc. simpl. rewrite Hc. by destruct (rstrip r). Qed.

Lemma rstrip_idem s : rstrip (rstrip s) = rstrip s.
Proof.
  induction s as [|c s IH]; [done|]. simpl.
  destruct (rstrip s) as [|d t] eqn:E.
  - destruct (isspace c) eqn:Hc; [done|]. simpl. by rewrite Hc.
  - simpl. simpl in IH. by rewrite IH.
Qed.

(** Stripping is idempotent: a stripped string has no blank at either end. *)
Lemma strip_idem s : strip (strip s) = strip s.
Proof.
  unfold strip. destruct (lstrip_head s) as [->|(c & r & -> & Hc)]; [done|].
  rewrite (rstrip_cons c r Hc). simpl lstrip. rewrite Hc.
  rewrite <- (rstrip_cons c r Hc). apply rstrip_idem.
Qed.

(** ** Templates without placeholders *)

Lemma scan_literal_brace_free s : brace_free s = true → scan_literal s = (s, None).
Proof.
  induction s as [|c s IH]; [done|]. simpl.
  intros [Hc Hs]%andb_true_iff. apply negb_true_iff in Hc. rewrite Hc.
  by rewrite (IH Hs).
Qed.

Lemma MarkupIterator_loop_nil fuel : MarkupIterator_loop fuel EmptyString = [].
Proof. by destruct fuel. Qed.

Lemma MarkupIterator_brace_free s :
  brace_free s = true →
  MarkupIterator s = match s with EmptyString => [] | _ => [MLiteral s] end.
Proof.
  intros Hs. destruct s as [|c r]; [done|].
  unfold MarkupIterator. cbn [String.length MarkupIterator_loop].
  unfold MarkupIterator_next. rewrite (scan_literal_brace_free _ Hs).
  by rewrite MarkupIterator_loop_nil.
Qed.

Lemma str_format_brace_free `{PyObjects} s kwargs :
  brace_free s = true → str_format s kwargs = inr s.
Proof.
  intros Hs. unfold str_format.
  change (build_string 2 kwargs s) with
    (do_markup (build_string 1 kwargs) kwargs (MarkupIterator s) EmptyString).
  rewrite (MarkupIterator_brace_free _ Hs). by destruct s.
Qed.

Lemma default_template_markup :
  MarkupIterator default_template =
  [MLiteral "python /models/scripts/infer.py --text "; MField "text" None "" false;
   MLiteral " --output "; MField "output" None "" false;
   MLiteral " --reference_audio "; MField "reference_audio" None "" false;
   MLiteral " --speaker "; MField "speaker" None "" false;
   MLiteral " --seed "; MField "seed" None "" false].
Proof. vm_compute. reflexivity. Qed.

(** ** Paths *)

Lemma split_slash_free s : slash_free s = true → split_slash s = [s].
Proof.
  induction s as [|c s IH]; [done|]. simpl.
  intros [Hc Hs]%andb_true_iff. apply negb_true_iff in Hc. rewrite Hc.
  by rewrite (IH Hs).
Qed.

Lemma join_slash_snoc xs : ∀ x y,
  join_slash (x :: xs ++ [y]) = join_slash (x :: xs) +:+ "/" +:+ y.
Proof.
  induction xs as [|z zs IH]; intros x y; [done|].
  change (join_slash (x :: (z :: zs) ++ [y]))
    with (x +:+ "/" +:+ join_slash (z :: zs ++ [y])).
  rewrite IH.
  change (join_slash (x :: z :: zs)) with (x +:+ "/" +:+ join_slash (z :: zs)).
  by rewrite !str_app_assoc.
Qed.

(** ** base64 *)

Lemma b64encode_length_bounded n : ∀ data,
  (length data ≤ n)%nat →
  Z.of_nat (String.length (b64encode data)) = (4 * ((Z.of_nat (length data) + 2) / 3))%Z.
Proof.
  induction n as [n IH] using lt_wf_ind. intros data Hlen.
  destruct data as [|x [|y [|z rest]]]; [done..|].
  cbn [b64encode String.length length].
  rewrite !Nat2Z.inj_succ, (IH (length rest)) by (simpl in Hlen; lia).
  Z.div_mod_to_equations. lia.
Qed.

(** Four characters for every three bytes, the last group padded. *)
Lemma b64encode_length data :
  Z.of_nat (String.length (b64encode data)) = (4 * ((Z.of_nat (length data) + 2) / 3))%Z.
Proof. by apply (b64encode_length_bounded (length data)). Qed.

(** ** Where a KeyError comes from *)

Section KeyErrorFacts.
Context `{PyObjects}.

Lemma get_field_object_access_free kwargs field_name :
  access_free field_name →
  (∃ s, get_field_object field_name kwargs = inr (FStr s))
  ∨ (∃ e, get_field_object field_name kwargs = inl (Error e))
  ∨ (∃ k, get_field_object field_name kwargs = inl (KeyError k)
          ∧ keyword_of field_name = Some k ∧ kwargs !! k = None).
Proof.
  unfold access_free, get_field_object, keyword_of.
  destruct (field_name_split field_name) as [first rest]; simpl. intros ->.
  destruct (get_integer first); eauto.
  destruct (str_bool first); simpl; eauto.
  destruct (kwargs !! first) eqn:E; eauto 10.
Qed.

Lemma output_markup_KeyError build_spec kwargs field_name conv spec b k :
  access_free field_name →
  output_markup build_spec kwargs field_name conv spec b = inl (KeyError k) →
  (keyword_of field_name = Some k ∧ kwargs !! k = None)
  ∨ (b = true ∧ build_spec spec = inl (KeyError k)).
Proof.
  intros Ha. unfold output_markup.
  destruct (get_field_object_access_free kwargs _ Ha)
    as [[s ->]|[[e ->]|(k' & -> & Hk & Hn)]]; [|done|by intros [= <-]; left].
  assert ((∃ s', match conv with None => inr (FStr s) | Some c => do_conversion (FStr s) c end
                 = inr (FStr s')) ∨
          (∃ e, match conv with None => inr (FStr s) | Some c => do_conversion (FStr s) c end
                 = inl (Error e))) as [[s' ->]|[e ->]]; [|idtac|done].
  { destruct conv; [apply do_conversion_str|eauto]. }
  destruct b.
  - destruct (build_spec spec) as [e|expanded] eqn:E.
    + intros [= ->]. by right.
    + intros Hr. by apply render_field_str in Hr.
  - intros Hr. by apply render_field_str in Hr.
Qed.

Lemma do_markup_KeyError build_spec nested kwargs ms k :
  (∀ n, In n (markup_placeholders nested ms) → access_free n) →
  (∀ spec, (∀ n, In n (nested spec) → access_free n) →
           build_spec spec = inl (KeyError k) →
           ∃ n, In n (nested spec) ∧ keyword_of n = Some k ∧ kwargs !! k = None) →
  ∀ writer, do_markup build_spec kwargs ms writer = inl (KeyError k) →
  ∃ n, In n (markup_placeholders nested ms) ∧ keyword_of n = Some k ∧ kwargs !! k = None.
Proof.
  intros Hms Hspec. induction ms as [|m ms IH]; intros writer; [done|].
  destruct m as [t|n conv spec b|msg]; simpl in *.
  - by apply IH.
  - destruct (output_markup _ _ _ _ _ _) as [e|out] eqn:E.
    + intros [= ->]. apply output_markup_KeyError in E as [[Hk Hn]|[-> Hb]].
      * exists n. auto.
      * destruct (Hspec spec) as (n' & Hin & Hk & Hn); [|done|].
        { intros n' Hn'. apply Hms. right. apply in_or_app. by left. }
        exists n'. split; [|done]. right. apply in_or_app. by left.
      * apply Hms. by left.
    + intros Hr. destruct (IH) with (writer := writer +:+ out) as (n' & Hin & Hk & Hn);
        [|done|].
      { intros n' Hn'. apply Hms. right. apply in_or_app. by right. }
      exists n'. split; [|done]. right. apply in_or_app. by right.
  - done.
Qed.

(** When no field has an access after its name, a [KeyError] is the
    keyword of one of the fields, and the arguments do not hold it. *)
Lemma build_string_KeyError depth kwargs k : ∀ input,
  (∀ n, In n (placeholders_depth depth input) → access_free n) →
  build_string depth kwargs input = inl (KeyError k) →
  ∃ n, In n (placeholders_depth depth input) ∧ keyword_of n = Some k ∧ kwargs !! k = None.
Proof.
  induction depth as [|d IH]; intros input Ha; [done|].
  simpl. apply do_markup_KeyError; [exact Ha|]. intros spec Hs. by apply IH.
Qed.

End KeyErrorFacts.

(** ** Rendering, running and answering *)

Section Further.
Context `{PyObjects} `{OS} `{Pydantic}.
Implicit Types (handler : SubprocessSynthesizer) (request : TTSRequest) (w : world).

Lemma substituted_builtin request out k :
  In k builtin_names →
  (sanitize <$> template_values request out) !! k =
  Some (substituted (template_values request out) k).
Proof.
  intros Hk. unfold substituted.
  destruct (template_values_supplied request out k Hk) as [v Hv].
  by rewrite lookup_fmap, Hv.
Qed.

Lemma render_command_stripped handler values command :
  _render_command handler values = inr command → strip command = command.
Proof.
  rewrite render_command_str_format.
  destruct (str_format _ _) as [[k|e]|raw]; try discriminate.
  intros [= <-]. apply strip_idem.
Qed.

Lemma synthesize_status handler request w status_code detail w' calls :
  SubprocessSynthesizer.synthesize handler request w
    = (inl (HTTPException status_code detail), w', calls) →
  status_code = 500%Z.
Proof.
  destruct (mkdtemp w) as [[e|tmpdir] w1] eqn:Hmk.
  { by rewrite (synthesize_no_tmpdir _ _ _ _ _ Hmk). }
  rewrite (synthesize_unfold _ _ _ _ _ Hmk). cbv zeta.
  rewrite render_command_str_format.
  destruct (str_format _ _) as [[k|e]|raw]; [by intros [= <-]|done|].
  destruct (str_bool _); [|by intros [= <-]].
  destruct (run_shell _ _ _) as [[e|rc] w2]; [done|].
  destruct (rc =? 0)%Z; [|by intros [= <-]].
  destruct (path_exists _ _) as [e|[]]; [done| |by intros [= <-]].
  by destruct (read_bytes _ _).
Qed.

(** X3: a template with no brace in it has no placeholder: whatever the
    mapping, the rendered command is the template with its leading and
    trailing whitespace removed. *)
Theorem template_without_placeholders handler values :
  brace_free (template handler) = true →
  _render_command handler values = inr (strip (template handler)).
Proof.
  intros Hs. rewrite render_command_str_format. by rewrite str_format_brace_free.
Qed.

(** X4: when the environment sets the command template to a string of
    blanks (or to the empty string), the synthesizer built from it answers
    every request with the error of the empty command, and runs nothing. *)
Theorem blank_template_rejects_every_request environ t request w tmpdir w1 :
  environ !! "INDEX_TTS_COMMAND_TEMPLATE" = Some t →
  brace_free t = true → strip t = EmptyString →
  mkdtemp w = (inr tmpdir, w1) →
  SubprocessSynthesizer.synthesize (__init__ environ) request w =
    (inl (HTTPException 500
            "Rendered command is empty. Check INDEX_TTS_COMMAND_TEMPLATE."),
     rmtree tmpdir w1, []).
Proof.
  intros Henv Hb Hs Hmk. rewrite (synthesize_unfold _ _ _ _ _ Hmk). cbv zeta.
  assert (template (__init__ environ) = t) as Ht.
  { unfold __init__, getenv. simpl. by rewrite Henv. }
  rewrite render_command_str_format, Ht, str_format_brace_free by done.
  by rewrite Hs.
Qed.

(** X5: with no template in the environment, the rendering succeeds for
    every request: the command is the default command line with each of the
    five placeholders replaced by its sanitized value, stripped (so a
    request with no seed leaves [--seed] at the end with no value and no
    blank after it). *)
Theorem default_template_always_renders request out :
  let value := substituted (template_values request out) in
  _render_command (__init__ ∅) (template_values request out) =
  inr (strip ("python /models/scripts/infer.py --text " +:+ value "text" +:+
              " --output " +:+ value "output" +:+
              " --reference_audio " +:+ value "reference_audio" +:+
              " --speaker " +:+ value "speaker" +:+
              " --seed " +:+ value "seed")).
Proof.
  intros value. rewrite render_command_str_format.
  change (template (__init__ ∅)) with default_template. unfold str_format.
  set (kwargs := sanitize <$> template_values request out).
  change (build_string 2 kwargs default_template) with
    (do_markup (build_string 1 kwargs) kwargs (MarkupIterator default_template)
       EmptyString).
  rewrite default_template_markup. cbn [do_markup].
  assert (∀ k, In k builtin_names →
            output_markup (build_string 1 kwargs) kwargs k None EmptyString false
            = inr (value k)) as Hfield.
  { intros k Hk. apply output_markup_plain; [|by apply substituted_builtin].
    unfold builtin_names in Hk. simpl in Hk.
    destruct Hk as [<-|[<-|[<-|[<-|[<-|[]]]]]]; reflexivity. }
  rewrite !Hfield by (unfold builtin_names; simpl; tauto).
  by rewrite !str_app_assoc.
Qed.

(** X6: a call of [synthesize] runs at most one process.  When it runs
    none, it raises.  When it runs one, the working directory is the
    configured one and the command line is not empty and has no blank at
    either end. *)
Theorem at_most_one_process handler request w :
  let '(result, _, calls) := SubprocessSynthesizer.synthesize handler request w in
  (calls = [] ∧ ∃ e, result = inl e)
  ∨ (∃ command,
       calls = [{| call_command := command; call_cwd := workdir handler |}]
       ∧ str_bool command = true
       ∧ strip command = command).
Proof.
  destruct (mkdtemp w) as [[e|tmpdir] w1] eqn:Hmk.
  { rewrite (synthesize_no_tmpdir _ _ _ _ _ Hmk). left. eauto. }
  rewrite (synthesize_unfold _ _ _ _ _ Hmk). cbv zeta.
  destruct (_render_command _ _) as [e|command] eqn:Hr; [left; eauto|].
  apply render_command_stripped in Hr.
  destruct (str_bool command) eqn:Hc; [|left; eauto].
  assert (∃ c, [{| call_command := command; call_cwd := workdir handler |}] =
               [{| call_command := c; call_cwd := workdir handler |}]
               ∧ str_bool c = true ∧ strip c = c) as Hcall by eauto.
  destruct (run_shell _ _ _) as [[e|rc] w2]; [by right|].
  destruct (rc =? 0)%Z; [|by right].
  destruct (path_exists _ _) as [e|[]]; [by right| |by right].
  destruct (read_bytes _ _); by right.
Qed.


(** X8: when the output format has no slash in it, the output path is the
    file [output.<output_format>] directly in the temporary directory. *)
Theorem output_path_in_temporary_directory tmpdir request :
  slash_free (output_format request) = true →
  parts (Path tmpdir) ≠ [] →
  path_str (output_path tmpdir request) =
  path_str (Path tmpdir) +:+ "/output." +:+ output_format request.
Proof.
  intros Hf Hp. unfold output_path, truediv.
  set (name := "output." +:+ output_format request).
  assert (Path name = {| root := EmptyString; parts := [name] |}) as ->.
  { unfold Path. subst name. str_norm. simpl leading_slashes.
    rewrite split_slash_free by (simpl; exact Hf).
    rewrite filter_cons_True by reflexivity. rewrite filter_nil. done. }
  destruct (parts (Path tmpdir)) as [|x xs] eqn:E; [done|].
  unfold path_str. cbn [str_bool root parts app]. rewrite E, join_slash_snoc.
  subst name. destruct (root (Path tmpdir)); rewrite ?str_app_assoc; by str_norm.
Qed.

(** X9: the names the mapping of [synthesize] holds are the five built-in
    names and the keys of [extra], and for a key of [extra] the value
    substituted is the quoted value of [extra] (nothing when it is empty),
    also when the key is a built-in name. *)
Theorem substitution_names request out k :
  (is_Some (template_values request out !! k)
   ↔ In k builtin_names ∨ is_Some (extra request !! k))
  ∧ (∀ s, extra request !! k = Some s →
          (sanitize <$> template_values request out) !! k =
          Some (if str_bool s then shlex_quote s else EmptyString)).
Proof.
  split.
  - split.
    + intros Hsome. destruct (extra request !! k) as [s|] eqn:Hx; [right; eauto|].
      destruct (in_dec string_dec k builtin_names) as [Hin|Hout]; [by left|].
      rewrite (template_values_absent _ _ _ Hout Hx) in Hsome. by destruct Hsome.
    + intros [Hin|[s Hx]]; [by apply template_values_supplied|].
      rewrite (template_values_extra _ _ _ _ Hx). eauto.
  - intros s Hx. by rewrite lookup_fmap, (template_values_extra _ _ _ _ Hx).
Qed.

(** X10: when no field of the template has an attribute or index access
    after its name, every [HTTPException] the rendering raises is the
    TemplateError of a name that a field of the template looks up and that
    the mapping does not hold. *)
Theorem TemplateError_names_a_missing_placeholder handler values status_code detail :
  (∀ n, In n (placeholders (template handler)) → access_free n) →
  _render_command handler values = inl (HTTPException status_code detail) →
  ∃ k n, HTTPException status_code detail = TemplateError k
         ∧ In n (placeholders (template handler))
         ∧ keyword_of n = Some k
         ∧ values !! k = None.
Proof.
  intros Ha. rewrite render_command_str_format.
  destruct (str_format _ _) as [[k|e]|command] eqn:E; [|done..].
  intros [= <- <-]. apply build_string_KeyError in E as (n & Hin & Hk & Hn); [|done].
  exists k, n. repeat split; try done.
  rewrite lookup_fmap in Hn. by destruct (values !! k).
Qed.

(** X11: in every dictionary the handler of [POST /synthesize] returns,
    the fields agree: [audio_base64] has four characters for every three
    bytes counted by [bytes], rounded up, it decodes to that many bytes, and
    [format] is the output format of the request. *)
Theorem response_fields_agree handler request w response w' calls :
  App.synthesize handler request w = (inr response, w', calls) →
  Z.of_nat (String.length (audio_base64 response)) = (4 * ((bytes response + 2) / 3))%Z
  ∧ format response = output_format request
  ∧ ∃ audio, b64decode (audio_base64 response) = Some audio
             ∧ bytes response = Z.of_nat (length audio).
Proof.
  unfold App.synthesize, bind, ret.
  destruct (SubprocessSynthesizer.synthesize handler request w) as [[[e|audio] w1] calls1];
    [discriminate|].
  intros [= <- <- <-]. simpl. repeat split.
  - apply b64encode_length.
  - exists audio. split; [apply b64decode_b64encode|done].
Qed.

(** X12: the answers of [POST /synthesize]: status 422 for a body that
    fails validation, with the world untouched and no process run; status
    500 for every body that passes it, after an error of the synthesis as
    after a successful one; never status 200. *)
Theorem response_statuses handler body w :
  let '(response, w', calls) := App.post_synthesize handler body w in
  (response_status response = 422%Z ∧ TTSRequest_validate body = None
   ∧ w' = w ∧ calls = [])
  ∨ (response_status response = 500%Z ∧ is_Some (TTSRequest_validate body)).
Proof.
  unfold App.post_synthesize.
  destruct (TTSRequest_validate body) as [request|]; [|by left].
  destruct (App.synthesize handler request w) as [[[e|response] w1] calls] eqn:Hh;
    right; (split; [|eauto]).
  - destruct e as [status_code detail|e]; [|done].
    unfold App.synthesize, bind, ret in Hh.
    destruct (SubprocessSynthesizer.synthesize handler request w)
      as [[[e|audio] w2] calls2] eqn:Hs; [|discriminate].
    injection Hh as -> _ _. by apply synthesize_status in Hs as ->.
  - by rewrite response_dict_invalid.
Qed.

End Further.

(** ** The further properties on concrete inputs *)

(** X3 at work: a fixed command line. *)
Lemma template_without_placeholders_example :
  @_render_command plain_fields {| template := "  echo done "; workdir := "/models" |}
    {[ "text" := VStr "hello" ]} = inr "echo done".
Proof.
  rewrite (@template_without_placeholders plain_fields
             {| template := "  echo done "; workdir := "/models" |}
             {[ "text" := VStr "hello" ]}); reflexivity.
Defined.

(** X4 at work: the template set to three blanks. *)
Lemma blank_template_example :
  @SubprocessSynthesizer.synthesize plain_fields (toy_os (exit_with 0))
    (__init__ {[ "INDEX_TTS_COMMAND_TEMPLATE" := "   " ]})
    (request_of_text "hello") empty_world =
  (inl (HTTPException 500 "Rendered command is empty. Check INDEX_TTS_COMMAND_TEMPLATE."),
   {| files := ∅; created := 1 |}, []).
Proof.
  rewrite (@blank_template_rejects_every_request plain_fields (toy_os (exit_with 0))
             {[ "INDEX_TTS_COMMAND_TEMPLATE" := "   " ]} "   "
             (request_of_text "hello") empty_world
             "/tmp/tmp0" {| files := ∅; created := 1 |});
    [vm_compute; reflexivity | reflexivity | reflexivity | reflexivity | reflexivity].
Defined.


(** X8 at work. *)
Lemma output_path_example :
  path_str (output_path "/tmp/tmp0" (request_of_text "hello")) = "/tmp/tmp0/output.wav".
Proof.
  rewrite (output_path_in_temporary_directory "/tmp/tmp0" (request_of_text "hello"));
    [reflexivity | reflexivity | discriminate].
Defined.

(** X10 at work: the template refers to [voice], which the mapping does not
    hold. *)
Lemma TemplateError_example :
  ∃ k n,
    HTTPException 500 "Missing placeholder 'voice' in INDEX_TTS_COMMAND_TEMPLATE."
      = TemplateError k
    ∧ In n (placeholders "tts {text} {voice}")
    ∧ keyword_of n = Some k
    ∧ template_values (request_of_text "hello") (Path "/tmp/tmp0/output.wav") !! k = None.
Proof.
  apply (@TemplateError_names_a_missing_placeholder plain_fields
           {| template := "tts {text} {voice}"; workdir := "/models" |}
           (template_values (request_of_text "hello") (Path "/tmp/tmp0/output.wav"))
           500%Z "Missing placeholder 'voice' in INDEX_TTS_COMMAND_TEMPLATE.").
  - vm_compute. intros n [<-|[<-|[]]]; reflexivity.
  - vm_compute. reflexivity.
Defined.

(** X11 at work: four bytes, eight characters. *)
Lemma response_fields_example :
  Z.of_nat (String.length "UklGRg==") = (4 * ((4 + 2) / 3))%Z
  ∧ "wav" = output_format (request_of_text "hello")
  ∧ ∃ audio, b64decode "UklGRg==" = Some audio ∧ 4%Z = Z.of_nat (length audio).
Proof.
  apply (@response_fields_agree plain_fields (toy_os write_stub)
           {| template := "stub {output}"; workdir := "/models" |}
           (request_of_text "hello") empty_world
           {| audio_base64 := "UklGRg=="; format := "wav"; bytes := 4 |}
           {| files := ∅; created := 1 |}
           [{| call_command := "stub /tmp/tmp0/output.wav"; call_cwd := "/models" |}]).
  vm_compute. reflexivity.
Defined.
